(** * Clause segmentation of doc-clause-extractor

    A shallow embedding of [process_text_pages] (src/convert.py and
    src/streamlit_app.py) and of [create_structured_word]
    (src/streamlit_app.py).

    Strings are modelled as lists of ASCII characters.  The Python
    predicates used by the code ([str.isspace] behind [str.strip] and the
    regex class [\s], the regex class [\d], the regex [.], and the line
    boundaries of [str.splitlines]) are written out on the ASCII range. *)

From Stdlib Require Import String Ascii Bool Arith Lia List.
Import ListNotations.

Definition str := list ascii.

(** ** Character classes *)

(** [str.isspace] / regex [\s] on ASCII: 9..13 and 28..32. *)
Definition is_space (c : ascii) : bool :=
  let n := nat_of_ascii c in
  ((9 <=? n) && (n <=? 13)) || ((28 <=? n) && (n <=? 32)).

(** Regex [\d] on ASCII. *)
Definition is_digit (c : ascii) : bool :=
  let n := nat_of_ascii c in (48 <=? n) && (n <=? 57).

(** Regex [\.]. *)
Definition is_dot (c : ascii) : bool := Ascii.eqb c ".".

(** Regex [.]: any character but a newline. *)
Definition not_newline (c : ascii) : bool := negb (Ascii.eqb c "010").

(** Line boundaries of [str.splitlines] on ASCII other than [\r]:
    [\n], [\v], [\f], [\x1c], [\x1d], [\x1e]. *)
Definition is_line_break (c : ascii) : bool :=
  let n := nat_of_ascii c in
  (n =? 10) || (n =? 11) || (n =? 12) || (n =? 28) || (n =? 29) || (n =? 30).

(** ** [str.strip] *)

Fixpoint lstrip (s : str) : str :=
  match s with
  | [] => []
  | c :: t => if is_space c then lstrip t else s
  end.

Definition rstrip (s : str) : str := rev (lstrip (rev s)).

Definition strip (s : str) : str := rstrip (lstrip s).

(** ** [str.splitlines] (without [keepends]).  [\r\n] is one boundary; a
    final line is only produced when it is not empty. *)

Fixpoint splitlines_aux (cur : str) (s : str) : list str :=
  match s with
  | [] => match cur with [] => [] | _ => [rev cur] end
  | c :: t =>
      if Ascii.eqb c "013" then
        rev cur :: match t with
                   | d :: t' => if Ascii.eqb d "010" then splitlines_aux [] t'
                                else splitlines_aux [] t
                   | [] => splitlines_aux [] t
                   end
      else if is_line_break c then rev cur :: splitlines_aux [] t
      else splitlines_aux (c :: cur) t
  end.

Definition splitlines (s : str) : list str := splitlines_aux [] s.

(** ** Regular expressions with Python's backtracking order

    [m r s] lists every way [r] matches a prefix of [s], in the order in
    which Python's backtracking matcher tries them: greedy repetitions try
    one more iteration first, [?] tries the option first.  A result is the
    list of the texts captured by the groups, in group order, and the
    unconsumed rest.  [re.match] returns the first result. *)

Inductive regex : Type :=
| RClass (p : ascii -> bool)       (** one character of a class *)
| RSeq (r1 r2 : regex)             (** concatenation *)
| RStar (r : regex)                (** greedy [*] *)
| ROpt (r : regex)                 (** greedy [?] *)
| RGroup (r : regex).              (** capturing group [( )] *)

(** greedy [+] *)
Definition RPlus (r : regex) : regex := RSeq r (RStar r).

Definition result : Type := (list str * str)%type.

(** The iterations of a star; each iteration has to consume input, and
    the fuel (the length of the input) bounds their number. *)
Fixpoint star_loop (f : str -> list result) (fuel : nat) (s : str)
  : list result :=
  match fuel with
  | O => [([], s)]
  | S n =>
      flat_map (fun '(c1, t1) =>
                  if length t1 <? length s
                  then map (fun '(c2, t2) => (c1 ++ c2, t2)) (star_loop f n t1)
                  else [])
               (f s)
      ++ [([], s)]
  end.

Fixpoint m (r : regex) (s : str) : list result :=
  match r with
  | RClass p =>
      match s with
      | c :: t => if p c then [([], t)] else []
      | [] => []
      end
  | RSeq r1 r2 =>
      flat_map (fun '(c1, t1) => map (fun '(c2, t2) => (c1 ++ c2, t2)) (m r2 t1))
               (m r1 s)
  | RStar r1 => star_loop (m r1) (length s) s
  | ROpt r1 => m r1 s ++ [([], s)]
  | RGroup r1 =>
      map (fun '(c, t) => (firstn (length s - length t) s :: c, t)) (m r1 s)
  end.

(** [pattern.match(s)]: the groups of the first match, if any.  The
    leading [^] of the patterns is the start anchor, which [match]
    implies. *)
Definition re_match (r : regex) (s : str) : option (list str) :=
  match m r s with
  | (groups, _) :: _ => Some groups
  | [] => None
  end.

(** [match.group(n)] for n >= 1. *)
Definition group (n : nat) (groups : list str) : str := nth (n - 1) groups [].

(** ** The two clause patterns *)

Definition convert_clause_pattern_text : String.string :=
  "^\s*(\d+(?:\.\d+)*)\s+(.*)"%string.
Definition streamlit_clause_pattern_text : String.string :=
  "^\s*(\d+(?:\.\d+)*\.?)\s+(.*)"%string.

Definition WS : regex := RStar (RClass is_space).                   (* \s* *)
Definition DIGITS : regex := RPlus (RClass is_digit).               (* \d+ *)
Definition DOT : regex := RClass is_dot.                             (* \. *)
(** one or more digit groups separated by dots *)
Definition NUM : regex := RSeq DIGITS (RStar (RSeq DOT DIGITS)).
(** one or more spaces, then the captured remainder *)
Definition REST : regex :=
  RSeq (RPlus (RClass is_space)) (RGroup (RStar (RClass not_newline))).

(** src/convert.py, the pattern [convert_clause_pattern_text] *)
Definition convert_clause_pattern : regex :=
  RSeq WS (RSeq (RGroup NUM) REST).

(** src/streamlit_app.py (also in [create_structured_word]), the pattern
    [streamlit_clause_pattern_text] *)
Definition streamlit_clause_pattern : regex :=
  RSeq WS (RSeq (RGroup (RSeq NUM (ROpt DOT))) REST).

(** ** [process_text_pages]

    Both files contain the same function; they differ only in the
    compiled [clause_pattern], which is the parameter [pat] here.  The
    loop state is [(rows, current_clause, current_text)], with [None]
    for Python's [None]. *)

Record row : Type := mk_row {
  clause_number : str;
  content : str;
  description : str
}.

Definition state : Type := (list (str * str) * option str * str)%type.

Definition init_state : state := ([], None, []).

(** [if current_clause:] is true for a non-empty string. *)
Definition truthy (o : option str) : bool :=
  match o with Some (_ :: _) => true | _ => false end.

(** The heading branch: seal the open clause, open a new one. *)
Definition open_clause (st : state) (groups : list str) : state :=
  let '(rows, current_clause, current_text) := st in
  let rows :=
    match current_clause with
    | Some ((_ :: _) as c) => rows ++ [(c, strip current_text)]
    | _ => rows
    end in
  (rows, Some (group 1 groups), group 2 groups).

(** The continuation branch: [current_text += " " + line]. *)
Definition continuation (st : state) (line : str) : state :=
  let '(rows, current_clause, current_text) := st in
  if truthy current_clause
  then (rows, current_clause, current_text ++ " "%char :: line)
  else st.

(** The body of the inner [for line in lines] loop. *)
Definition step (pat : regex) (st : state) (raw : str) : state :=
  let line := strip raw in
  match line with
  | [] => st
  | _ =>
      match re_match pat line with
      | Some groups => open_clause st groups
      | None => continuation st line
      end
  end.

(** After the loop: append the open clause, build the data frame and add
    the empty [description] column. *)
Definition finish (st : state) : list row :=
  let '(rows, current_clause, current_text) := st in
  let rows :=
    match current_clause with
    | Some ((_ :: _) as c) => rows ++ [(c, strip current_text)]
    | _ => rows
    end in
  map (fun '(c, t) => mk_row c t []) rows.

Definition process_with (pat : regex) (text_pages : list str) : list row :=
  finish (fold_left (fun st page_content =>
                       fold_left (step pat) (splitlines page_content) st)
                    text_pages init_state).

Module Convert.
Definition clause_pattern := convert_clause_pattern.
Definition process_text_pages (text_pages : list str) : list row :=
  process_with clause_pattern text_pages.
End Convert.

Module Streamlit.
Definition clause_pattern := streamlit_clause_pattern.
Definition process_text_pages (text_pages : list str) : list row :=
  process_with clause_pattern text_pages.
End Streamlit.

(** ** [create_structured_word] (src/streamlit_app.py)

    The python-docx calls are recorded as a list of document items:
    [doc.add_heading(text, level=level)] and [doc.add_paragraph(line)]. *)

Inductive doc_item : Type :=
| Heading (text : str) (level : nat)
| Paragraph (text : str).

(** [clause_number.count(".")] *)
Definition count_dots (s : str) : nat := length (filter is_dot s).

Definition word_line (doc : list doc_item) (raw : str) : list doc_item :=
  let line := strip raw in
  match line with
  | [] => doc
  | _ =>
      match re_match Streamlit.clause_pattern line with
      | Some groups =>
          let clause_number := group 1 groups in
          let content := group 2 groups in
          let level := count_dots clause_number + 1 in
          let level := Nat.min level 4 in
          doc ++ [Heading (clause_number ++ " "%char :: content) level]
      | None => doc ++ [Paragraph line]
      end
  end.

Definition create_structured_word (text_pages : list str) : list doc_item :=
  fold_left (fun doc page => fold_left word_line (splitlines page) doc)
            text_pages [].

(** ** Helpers for concrete inputs *)

Open Scope string_scope.
Open Scope list_scope.

Definition s2l : String.string -> str := String.list_ascii_of_string.

(** A page given as its lines, joined with [\n]. *)
Definition page (ls : list String.string) : str :=
  match map s2l ls with
  | [] => []
  | l :: rest => l ++ flat_map (fun x => "010"%char :: x) rest
  end.

Definition rec (c t : String.string) : row := mk_row (s2l c) (s2l t) [].


(** ** Vocabulary of the properties *)

(** All lines of all pages, in order. *)
Definition page_lines (text_pages : list str) : list str :=
  flat_map splitlines text_pages.

(** The segmenter run over one stream of lines. *)
Definition seg_lines (pat : regex) (ls : list str) : list row :=
  finish (fold_left (step pat) ls init_state).

Definition is_blank (raw : str) : bool :=
  match strip raw with [] => true | _ => false end.

Definition is_heading (pat : regex) (raw : str) : bool :=
  match strip raw with
  | [] => false
  | line => match re_match pat line with Some _ => true | None => false end
  end.

(** The identifiers of the heading lines of a stream, in stream order. *)
Definition heading_ids (pat : regex) (ls : list str) : list str :=
  flat_map (fun raw =>
              match strip raw with
              | [] => []
              | line =>
                  match re_match pat line with
                  | Some groups => [group 1 groups]
                  | None => []
                  end
              end) ls.

(** Feeding one line to the loop body as a continuation line. *)
Definition feed_continuation (st : state) (raw : str) : state :=
  let line := strip raw in
  match line with
  | [] => st
  | _ => continuation st line
  end.

(** No whitespace at either end. *)
Definition trimmed (s : str) : Prop :=
  forall c, hd_error s = Some c \/ hd_error (rev s) = Some c -> is_space c = false.

(** The language of a regular expression, with the captured texts. *)
Inductive matches : regex -> str -> list str -> Prop :=
| MClass p c : p c = true -> matches (RClass p) [c] []
| MSeq r1 r2 w1 w2 c1 c2 :
    matches r1 w1 c1 -> matches r2 w2 c2 -> matches (RSeq r1 r2) (w1 ++ w2) (c1 ++ c2)
| MStar0 r : matches (RStar r) [] []
| MStarS r w1 w2 c1 c2 :
    w1 <> [] -> matches r w1 c1 -> matches (RStar r) w2 c2 ->
    matches (RStar r) (w1 ++ w2) (c1 ++ c2)
| MOpt0 r : matches (ROpt r) [] []
| MOpt1 r w c : matches r w c -> matches (ROpt r) w c
| MGroup r w c : matches r w c -> matches (RGroup r) w (w :: c).

Fixpoint has_group (r : regex) : bool :=
  match r with
  | RClass _ => false
  | RSeq r1 r2 => has_group r1 || has_group r2
  | RStar r1 | ROpt r1 => has_group r1
  | RGroup _ => true
  end.

(** Every class of [r] is contained in [q]. *)
Fixpoint classes_in (q : ascii -> bool) (r : regex) : Prop :=
  match r with
  | RClass p => forall x, p x = true -> q x = true
  | RSeq r1 r2 => classes_in q r1 /\ classes_in q r2
  | RStar r1 | ROpt r1 | RGroup r1 => classes_in q r1
  end.

(** A clause number: starts with a digit, only digits and dots. *)
Definition num_ok (g : str) : Prop :=
  (exists d rest, g = d :: rest /\ is_digit d = true) /\
  Forall (fun c => is_digit c || is_dot c = true) g.

(** A line that starts with digit groups, a dot and a whitespace. *)
Definition dotted_heading (line : str) : Prop :=
  exists g c rest, line = g ++ "."%char :: c :: rest /\ matches NUM g [] /\
                   is_space c = true.

(** The depth of the hierarchical renderer, as the spec defines it. *)
Definition depth (identifier : str) : nat := Nat.min (count_dots identifier + 1) 4.

Definition render (raw : str) : list doc_item :=
  match strip raw with
  | [] => []
  | line =>
      match re_match Streamlit.clause_pattern line with
      | Some groups =>
          [Heading (group 1 groups ++ " "%char :: group 2 groups) (depth (group 1 groups))]
      | None => [Paragraph line]
      end
  end.

Definition nn (c : ascii) : Prop := not_newline c = true.

Definition digit_or_dot (c : ascii) : bool := is_digit c || is_dot c.

(** ** Text extraction (src/convert.py, src/streamlit_app.py)

    pdfplumber, pdf2image and pytesseract are external: the texts they
    return are the inputs here.  [page.extract_text()] may be [None]. *)

(** [(page.extract_text() or "").strip()] for every page *)
Definition extract_text_from_pdf (page_texts : list (option str)) : list str :=
  map (fun t => strip (match t with Some s => s | None => [] end)) page_texts.

(** [[text_content.strip()]] *)
Definition extract_text_from_image (ocr_text : str) : list str := [strip ocr_text].

(** the OCR text of every page image, appended as it is *)
Definition extract_text_from_scanned_pdf (ocr_texts : list str) : list str :=
  fold_left (fun full_text text => full_text ++ [text]) ocr_texts [].

Definition str_eqb (a b : str) : bool :=
  if list_eq_dec ascii_dec a b then true else false.

(** [str.lower] on ASCII *)
Definition ascii_lower (c : ascii) : ascii :=
  let n := nat_of_ascii c in
  if ((65 <=? n) && (n <=? 90))%nat then ascii_of_nat (n + 32) else c.

Definition lower (s : str) : str := map ascii_lower s.

(** [any(text_pages)]: some page is a non-empty string *)
Definition py_any (pages : list str) : bool :=
  existsb (fun p => match p with [] => false | _ => true end) pages.

(** ** [pathlib.PurePosixPath] (Python 3.12) *)

Record path : Type := mk_path { root : str; tail : list str }.

Definition is_slash (c : ascii) : bool := Ascii.eqb c "/".

(** [posixpath.splitroot]: the root *)
Definition path_root (s : str) : str :=
  match s with
  | a :: rest =>
      if is_slash a then
        match rest with
        | b :: rest' =>
            if is_slash b then
              match rest' with
              | c :: _ => if is_slash c then ["/"%char] else ["/"%char; "/"%char]
              | [] => ["/"%char; "/"%char]
              end
            else ["/"%char]
        | [] => ["/"%char]
        end
      else []
  | [] => []
  end.

(** [rel.split(sep)] *)
Fixpoint split_slash (cur : str) (s : str) : list str :=
  match s with
  | [] => [rev cur]
  | c :: t => if is_slash c then rev cur :: split_slash [] t else split_slash (c :: cur) t
  end.

(** [Path(s)]: drop the empty and [.] components *)
Definition path_of_string (s : str) : path :=
  mk_path (path_root s)
          (filter (fun x => negb (str_eqb x []) && negb (str_eqb x ["."%char]))
                  (split_slash [] s)).

Fixpoint join_slash (parts : list str) : str :=
  match parts with
  | [] => []
  | [x] => x
  | x :: rest => x ++ "/"%char :: join_slash rest
  end.

(** [str(path)] *)
Definition path_str (p : path) : str :=
  match root p, tail p with
  | [], [] => ["."%char]
  | r, t => r ++ join_slash t
  end.

(** [path.name] *)
Definition path_name (p : path) : str := last (tail p) [].

(** the position of the last dot: the split [name[:i]], [name[i+1:]] *)
Fixpoint split_last_dot (rname : str) (after : str) : option (str * str) :=
  match rname with
  | [] => None
  | c :: r => if is_dot c then Some (rev r, after) else split_last_dot r (c :: after)
  end.

(** [path.suffix]: [name[i:]] when [0 < i < len(name) - 1] *)
Definition path_suffix (p : path) : str :=
  match split_last_dot (rev (path_name p)) [] with
  | Some (before, after) =>
      if ((0 <? length before) && (0 <? length after))%nat then "."%char :: after else []
  | None => []
  end.

(** [path.with_suffix(suffix)]; [None] is the [ValueError] *)
Definition with_suffix (p : path) (suffix : str) : option path :=
  if existsb is_slash suffix then None
  else if (match suffix with c :: _ => negb (is_dot c) | [] => false end)
          || str_eqb suffix ["."%char] then None
  else
    let name := path_name p in
    match name with
    | [] => None
    | _ =>
        let old_suffix := path_suffix p in
        let name := match old_suffix with
                    | [] => name ++ suffix
                    | _ => firstn (length name - length old_suffix) name ++ suffix
                    end in
        Some (mk_path (root p) (removelast (tail p) ++ [name]))
    end.

(** ** [convert_file] (src/convert.py)

    The calls it makes are recorded in order; an exception ends the run.
    [file_exists] is the file system's answer to [path.exists()]. *)

Inductive event : Type :=
| ExtractPdf (p : path)
| ExtractImage (p : path)
| SaveExcel (output : str)
| SavePostgres (url table : str).

Inductive py_error : Type :=
| FileNotFoundError (msg : str)
| ValueError (msg : str).

Definition run : Type := (list event * option py_error)%type.

Definition convert_file (file_exists : path -> bool) (input_path : str) (target : str)
    (excel_output postgres_url : option str) (postgres_table : str) : run :=
  let path := path_of_string input_path in
  if negb (file_exists path) then
    ([], Some (FileNotFoundError (s2l "File not found: " ++ path_str path)))
  else
    let ext := lower (path_suffix path) in
    let extraction :=
      if str_eqb ext (s2l ".pdf") then Some (ExtractPdf path)
      else if existsb (str_eqb ext) [s2l ".jpg"; s2l ".jpeg"; s2l ".png"]
      then Some (ExtractImage path)
      else None in
    match extraction with
    | None => ([], Some (ValueError (s2l "Unsupported file type: " ++ ext)))
    | Some extract =>
        if str_eqb target (s2l "excel") then
          match excel_output with
          | Some ((_ :: _) as out) => ([extract; SaveExcel out], None)
          | _ =>
              match with_suffix path (s2l ".xlsx") with
              | Some q => ([extract; SaveExcel (path_str q)], None)
              | None => ([extract], Some (ValueError (s2l "PosixPath('" ++ path_str path
                                                      ++ s2l "') has an empty name")))
              end
          end
        else if str_eqb target (s2l "postgres") then
          match postgres_url with
          | Some ((_ :: _) as url) => ([extract; SavePostgres url postgres_table], None)
          | _ => ([extract],
                  Some (ValueError (s2l "postgres_url is required when target='postgres'")))
          end
        else ([extract], Some (ValueError (s2l "Unknown target: " ++ target)))
    end.

(** ** The data frame, the Excel sheet and the Postgres rows *)

(** The columns of [df]: [pd.DataFrame(rows)] has the keys of the row
    dicts as columns; with no rows it has none, and [df["description"] = ""]
    then adds the only column. *)
Definition frame_columns (rows : list row) : list (str * list str) :=
  match rows with
  | [] => [(s2l "description", [])]
  | _ => [(s2l "clause_number", map clause_number rows);
          (s2l "content", map content rows);
          (s2l "description", map description rows)]
  end.

(** [df.empty]: no row or no column *)
Definition df_empty (rows : list row) : bool :=
  ((length rows =? 0) || (length (frame_columns rows) =? 0))%nat.

(** The loop over the cells of a column: [if cell.value:] skips empty
    cells, then [max(max_length, len(str(cell.value)))]. *)
Definition max_length (cells : list str) : nat :=
  fold_left (fun acc v => match v with [] => acc | _ => Nat.max acc (length v) end) cells 0.

(** [min(max_length + 2, 60)] for every column of the sheet written by
    [df.to_excel(..., index=False)]: the header cell, then the values. *)
Definition column_widths (rows : list row) : list nat :=
  map (fun '(header, values) => Nat.min (max_length (header :: values) + 2) 60)
      (frame_columns rows).

(** The first tab of src/streamlit_app.py: the warning, or the count of
    [st.success(f"Extracted {len(df)} clauses.")]. *)
Inductive tab_message : Type :=
| NoClausesDetected
| Extracted (n : nat).

Definition excel_tab (text_pages : list str) : tab_message :=
  let df := Streamlit.process_text_pages text_pages in
  if df_empty df then NoClausesDetected else Extracted (length df).

(** The second tab: the pages given to [create_structured_word]. *)
Definition word_tab_pages (file_name : str) (page_texts : list (option str))
    (scanned_texts : list str) (image_text : str) : list str :=
  let suffix := path_suffix (path_of_string file_name) in
  if str_eqb (lower suffix) (s2l ".pdf") then
    let text_pages := extract_text_from_pdf page_texts in
    if negb (py_any text_pages) then extract_text_from_scanned_pdf scanned_texts
    else text_pages
  else extract_text_from_image image_text.

(** [save_to_postgres]: the statements run in the transaction. *)
Inductive sql : Type :=
| CreateTable (table : str)
| InsertRow (table : str) (clause content description : str).

Definition save_to_postgres (text_pages : list str) (connection_url : str)
    (table_name : str) : list sql :=
  let df := Convert.process_text_pages text_pages in
  CreateTable table_name ::
  map (fun r => InsertRow table_name (clause_number r) (content r) (description r)) df.

(** The non-blank lines of a stream, stripped. *)
Definition nb_lines (ls : list str) : list str :=
  map strip (filter (fun l => negb (is_blank l)) ls).

Definition headings_of (doc : list doc_item) : list str :=
  flat_map (fun it => match it with Heading t _ => [t] | Paragraph _ => [] end) doc.

Definition paragraphs_of (doc : list doc_item) : list str :=
  flat_map (fun it => match it with Paragraph t => [t] | Heading _ _ => [] end) doc.

Definition levels_of (doc : list doc_item) : list nat :=
  flat_map (fun it => match it with Heading _ l => [l] | Paragraph _ => [] end) doc.

(** Invariants of the loop state. *)
Definition row_pair_ok (r : str * str) : Prop :=
  num_ok (fst r) /\ trimmed (snd r) /\ Forall nn (snd r).

Definition state_ok (st : state) : Prop :=
  let '(rows, current_clause, current_text) := st in
  Forall row_pair_ok rows /\
  (current_clause = None \/ exists g, current_clause = Some g /\ num_ok g) /\
  Forall nn current_text.

Definition row_ok (r : row) : Prop :=
  num_ok (clause_number r) /\ trimmed (content r) /\ Forall nn (content r) /\
  description r = [].

(** The identifiers of the sealed rows and of the open clause. *)
Definition state_ids (st : state) : list str :=
  let '(rows, current_clause, _) := st in
  map fst rows ++ match current_clause with Some c => [c] | None => [] end.

(** Runs of whitespace. *)
Definition spaces (w : str) : Prop := Forall (fun c => is_space c = true) w.

(** One iteration of the width loop of [save_to_excel]. *)
Definition max_step (acc : nat) (v : str) : nat :=
  match v with [] => acc | _ => Nat.max acc (length v) end.

(** The suffixes [convert_file] extracts text from. *)
Definition supported_exts : list str := [s2l ".pdf"; s2l ".jpg"; s2l ".jpeg"; s2l ".png"].

(** The part of [convert_file] after the extraction. *)
Definition after_extraction (path : path) (extract : event) (target : str)
    (excel_output postgres_url : option str) (postgres_table : str) : run :=
  if str_eqb target (s2l "excel") then
    match excel_output with
    | Some ((_ :: _) as out) => ([extract; SaveExcel out], None)
    | _ =>
        match with_suffix path (s2l ".xlsx") with
        | Some q => ([extract; SaveExcel (path_str q)], None)
        | None => ([extract], Some (ValueError (s2l "PosixPath('" ++ path_str path
                                                ++ s2l "') has an empty name")))
        end
    end
  else if str_eqb target (s2l "postgres") then
    match postgres_url with
    | Some ((_ :: _) as url) => ([extract; SavePostgres url postgres_table], None)
    | _ => ([extract],
            Some (ValueError (s2l "postgres_url is required when target='postgres'")))
    end
  else ([extract], Some (ValueError (s2l "Unknown target: " ++ target))).

(** * Properties *)

(** ** The loop as one stream of lines *)

Lemma fold_pages pat pages st :
  fold_left (fun st page_content => fold_left (step pat) (splitlines page_content) st)
            pages st
  = fold_left (step pat) (page_lines pages) st.
Proof.
  revert st; induction pages as [|p ps IH]; intro st; simpl; [reflexivity|].
  rewrite IH, fold_left_app. reflexivity.
Qed.

Lemma process_seg pat pages :
  process_with pat pages = seg_lines pat (page_lines pages).
Proof. unfold process_with, seg_lines. rewrite fold_pages. reflexivity. Qed.

Lemma step_blank pat st raw : is_blank raw = true -> step pat st raw = st.
Proof. unfold is_blank, step. destruct (strip raw); [reflexivity | discriminate]. Qed.

Lemma fold_filter_blank pat ls st :
  fold_left (step pat) ls st
  = fold_left (step pat) (filter (fun l => negb (is_blank l)) ls) st.
Proof.
  revert st; induction ls as [|l ls IH]; intro st; simpl; [reflexivity|].
  destruct (is_blank l) eqn:E; simpl.
  - rewrite step_blank by exact E. apply IH.
  - apply IH.
Qed.

Lemma step_orphan pat raw :
  is_heading pat raw = false -> step pat init_state raw = init_state.
Proof.
  unfold is_heading, step. destruct (strip raw) as [|c t]; [reflexivity|].
  destruct (re_match pat (c :: t)); [discriminate | reflexivity].
Qed.

Lemma fold_orphans pat pre :
  Forall (fun l => is_heading pat l = false) pre ->
  fold_left (step pat) pre init_state = init_state.
Proof.
  induction 1 as [|l pre Hl _ IH]; simpl; [reflexivity|].
  rewrite step_orphan by exact Hl. exact IH.
Qed.

Example ex_two_clauses :
  Convert.process_text_pages
    [page ["1 Scope"; "This defines scope."; "1.1 Sub"; "Detail text."]]
  = [rec "1" "Scope This defines scope."; rec "1.1" "Sub Detail text."].
Proof. vm_compute. reflexivity. Qed.

Example ex_dot :
  Streamlit.process_text_pages [page ["1. Heading"]] = [rec "1." "Heading"].
Proof. vm_compute. reflexivity. Qed.

Example ex_convert_dot :
  Convert.process_text_pages [page ["1. Heading"]] = [].
Proof. vm_compute. reflexivity. Qed.

Example ex_word :
  create_structured_word [page ["intro"; "1.2. Two"; "1.2.3.4.5 Five"]]
  = [Paragraph (s2l "intro"); Heading (s2l "1.2. Two") 3;
     Heading (s2l "1.2.3.4.5 Five") 4].
Proof. vm_compute. reflexivity. Qed.

Example ex_crlf :
  splitlines (s2l "a" ++ ["013"; "010"]%char ++ s2l "b" ++ ["010"; "010"]%char)
  = [s2l "a"; s2l "b"; []].
Proof. vm_compute. reflexivity. Qed.

(** ** Soundness of the matcher *)

Lemma star_loop_sound r f :
  (forall s c t, In (c, t) (f s) -> exists w, s = w ++ t /\ matches r w c) ->
  forall n s c t, In (c, t) (star_loop f n s) ->
  exists w, s = w ++ t /\ matches (RStar r) w c.
Proof.
  intros Hf n; induction n as [|n IH]; intros s c t Hin; simpl in Hin.
  - destruct Hin as [Heq|[]]. inversion Heq; subst. exists []. split; [reflexivity|constructor].
  - apply in_app_or in Hin as [Hin|[Heq|[]]].
    + apply in_flat_map in Hin as [[c1 t1] [Hin1 Hin2]].
      destruct ((length t1 <? length s)%nat) eqn:Hlt; [|contradiction].
      apply Nat.ltb_lt in Hlt.
      apply in_map_iff in Hin2 as [[c2 t2] [Heq Hin2]]. inversion Heq; subst.
      destruct (Hf _ _ _ Hin1) as [w1 [Hs1 Hm1]].
      destruct (IH _ _ _ Hin2) as [w2 [Hs2 Hm2]].
      exists (w1 ++ w2). split; [subst; rewrite app_assoc; reflexivity|].
      constructor; [|assumption|assumption].
      intros ->. subst s. simpl in Hlt. lia.
    + inversion Heq; subst. exists []. split; [reflexivity|constructor].
Qed.

Lemma m_sound r : forall s c t, In (c, t) (m r s) -> exists w, s = w ++ t /\ matches r w c.
Proof.
  induction r as [p|r1 IH1 r2 IH2|r1 IH1|r1 IH1|r1 IH1]; intros s c t Hin; simpl in Hin.
  - destruct s as [|x s']; [contradiction|].
    destruct (p x) eqn:Hp; [|contradiction].
    destruct Hin as [Heq|[]]. inversion Heq; subst.
    exists [x]. split; [reflexivity|constructor; exact Hp].
  - apply in_flat_map in Hin as [[c1 t1] [Hin1 Hin2]].
    apply in_map_iff in Hin2 as [[c2 t2] [Heq Hin2]]. inversion Heq; subst.
    destruct (IH1 _ _ _ Hin1) as [w1 [Hs1 Hm1]].
    destruct (IH2 _ _ _ Hin2) as [w2 [Hs2 Hm2]].
    exists (w1 ++ w2). split; [subst; rewrite app_assoc; reflexivity|].
    constructor; assumption.
  - exact (star_loop_sound r1 (m r1) IH1 _ _ _ _ Hin).
  - apply in_app_or in Hin as [Hin|[Heq|[]]].
    + destruct (IH1 _ _ _ Hin) as [w [Hs Hm]]. exists w. split; [assumption|].
      constructor; assumption.
    + inversion Heq; subst. exists []. split; [reflexivity|constructor].
  - apply in_map_iff in Hin as [[c1 t1] [Heq Hin]]. inversion Heq; subst.
    destruct (IH1 _ _ _ Hin) as [w [Hs Hm]]. exists w. split; [assumption|].
    subst s. rewrite length_app, Nat.add_sub, firstn_app, Nat.sub_diag, firstn_all.
    simpl. rewrite app_nil_r. constructor; assumption.
Qed.

Lemma re_match_sound r s groups :
  re_match r s = Some groups -> exists w t, s = w ++ t /\ matches r w groups.
Proof.
  unfold re_match. destruct (m r s) as [|[g t] rest] eqn:E; [discriminate|].
  intro H; inversion H; subst.
  destruct (m_sound r s groups t) as [w [Hs Hm]]; [rewrite E; left; reflexivity|].
  exists w, t. split; assumption.
Qed.

Lemma matches_no_group r w c : matches r w c -> has_group r = false -> c = [].
Proof.
  intros Hm Hg; induction Hm; simpl in Hg; try reflexivity.
  - apply orb_false_iff in Hg as [H1 H2]. rewrite IHHm1, IHHm2 by assumption. reflexivity.
  - rewrite IHHm1, IHHm2 by assumption. reflexivity.
  - apply IHHm; assumption.
  - discriminate.
Qed.

Lemma matches_classes q r w c :
  classes_in q r -> matches r w c -> Forall (fun x => q x = true) w.
Proof.
  intros Hq Hm; induction Hm; simpl in Hq.
  - constructor; [apply Hq; assumption|constructor].
  - destruct Hq. apply Forall_app; split; auto.
  - constructor.
  - apply Forall_app; split; auto.
  - constructor.
  - auto.
  - auto.
Qed.

Lemma matches_seq_inv r1 r2 w c :
  matches (RSeq r1 r2) w c ->
  exists w1 w2 c1 c2, w = w1 ++ w2 /\ c = c1 ++ c2 /\ matches r1 w1 c1 /\ matches r2 w2 c2.
Proof. intro H; inversion H; subst. do 4 eexists; repeat split; eassumption. Qed.

Lemma matches_group_inv r w c :
  matches (RGroup r) w c -> exists c', c = w :: c' /\ matches r w c'.
Proof. intro H; inversion H; subst. eexists; split; [reflexivity|eassumption]. Qed.

Lemma matches_class_inv p w c :
  matches (RClass p) w c -> exists x, w = [x] /\ p x = true /\ c = [].
Proof. intro H; inversion H; subst. eexists; repeat split; assumption. Qed.

Lemma num_classes : classes_in digit_or_dot NUM.
Proof.
  unfold digit_or_dot; simpl; repeat split; intros x Hx; rewrite Hx;
    [reflexivity|reflexivity|apply orb_true_r|reflexivity|reflexivity].
Qed.

Lemma num_first_digit w c :
  matches NUM w c -> exists d rest, w = d :: rest /\ is_digit d = true.
Proof.
  unfold NUM, DIGITS, RPlus. intro H.
  apply matches_seq_inv in H as (w1 & w2 & c1 & c2 & -> & _ & H1 & _).
  apply matches_seq_inv in H1 as (w3 & w4 & c3 & c4 & -> & _ & H3 & _).
  apply matches_class_inv in H3 as (x & -> & Hx & _).
  exists x, (w4 ++ w2). split; [reflexivity|exact Hx].
Qed.

Lemma num_matches_ok w c : matches NUM w c -> num_ok w /\ c = [].
Proof.
  intro H. split; [split|].
  - exact (num_first_digit w c H).
  - exact (matches_classes _ _ _ _ num_classes H).
  - exact (matches_no_group _ _ _ H eq_refl).
Qed.

Lemma numdot_matches_ok w c : matches (RSeq NUM (ROpt DOT)) w c -> num_ok w /\ c = [].
Proof.
  intro H. split; [split|].
  - apply matches_seq_inv in H as (w1 & w2 & c1 & c2 & -> & _ & H1 & _).
    destruct (num_first_digit w1 c1 H1) as (d & rest & -> & Hd).
    exists d, (rest ++ w2). split; [reflexivity|exact Hd].
  - refine (matches_classes _ _ _ _ _ H). split; [exact num_classes|].
    unfold digit_or_dot; simpl. intros x Hx; rewrite Hx; apply orb_true_r.
  - exact (matches_no_group _ _ _ H eq_refl).
Qed.

(** The groups of a match of either clause pattern: a clause number and a
    remainder without newline. *)
Lemma pattern_shape X s groups :
  (forall w c, matches X w c -> num_ok w /\ c = []) ->
  re_match (RSeq WS (RSeq (RGroup X) REST)) s = Some groups ->
  exists g1 g2, groups = [g1; g2] /\ num_ok g1 /\ Forall nn g2.
Proof.
  intros HX Hm. apply re_match_sound in Hm as (w & t & _ & Hm).
  apply matches_seq_inv in Hm as (wa & wb & ca & cb & _ & -> & Ha & Hb).
  rewrite (matches_no_group _ _ _ Ha eq_refl).
  apply matches_seq_inv in Hb as (wc & wd & cc & cd & _ & -> & Hc & Hd).
  apply matches_group_inv in Hc as (ce & -> & Hc).
  destruct (HX _ _ Hc) as [Hok ->].
  unfold REST in Hd.
  apply matches_seq_inv in Hd as (wf & wg & cf & cg & _ & -> & Hf & Hg).
  rewrite (matches_no_group _ _ _ Hf eq_refl).
  apply matches_group_inv in Hg as (ch & -> & Hg).
  rewrite (matches_no_group _ _ _ Hg eq_refl).
  exists wc, wg. split; [reflexivity|split; [exact Hok|]].
  refine (matches_classes not_newline _ _ _ _ Hg). simpl. intros x Hx; exact Hx.
Qed.

Lemma convert_shape s groups :
  re_match Convert.clause_pattern s = Some groups ->
  exists g1 g2, groups = [g1; g2] /\ num_ok g1 /\ Forall nn g2.
Proof. apply pattern_shape. exact num_matches_ok. Qed.

Lemma streamlit_shape s groups :
  re_match Streamlit.clause_pattern s = Some groups ->
  exists g1 g2, groups = [g1; g2] /\ num_ok g1 /\ Forall nn g2.
Proof. apply pattern_shape. exact numdot_matches_ok. Qed.

(** ** The two patterns agree away from a dotted identifier *)

Lemma rest_nil t2 :
  (t2 = [] \/ exists c r, t2 = c :: r /\ is_space c = false) -> m REST t2 = [].
Proof.
  intros [->|(c & r & -> & Hc)]; [reflexivity|].
  unfold REST, RPlus. simpl. rewrite Hc. reflexivity.
Qed.

Lemma numdot_rest_eq t :
  ~ dotted_heading t ->
  m (RSeq (RGroup (RSeq NUM (ROpt DOT))) REST) t = m (RSeq (RGroup NUM) REST) t.
Proof.
  intro Hnd. cbn [m].
  assert (Hall : forall c1 t1, In (c1, t1) (m NUM t) -> exists w, t = w ++ t1 /\ matches NUM w c1)
    by (intros; apply m_sound; assumption).
  revert Hall. generalize (m NUM t) as L.
  induction L as [|[c1 t1] L IH]; intro Hall; [reflexivity|].
  cbn [flat_map map]. rewrite map_app, flat_map_app.
  f_equal; [|apply IH; intros; apply Hall; right; assumption].
  destruct (Hall c1 t1 (or_introl eq_refl)) as (w & Ht & Hw).
  pose proof (matches_no_group _ _ _ Hw eq_refl) as ->.
  destruct t1 as [|x t2]; [reflexivity|].
  unfold DOT. cbn [m]. destruct (is_dot x) eqn:Ex; cbn [map app flat_map].
  - rewrite rest_nil; [cbn [map app]; rewrite app_nil_r; reflexivity|].
    destruct t2 as [|c r]; [left; reflexivity|right].
    exists c, r. split; [reflexivity|].
    destruct (is_space c) eqn:Ec; [|reflexivity].
    exfalso. apply Hnd. exists w, c, r. split; [|split; assumption].
    unfold is_dot in Ex. apply Ascii.eqb_eq in Ex. subst. reflexivity.
  - cbn [map app]. rewrite app_nil_r. reflexivity.
Qed.

Lemma flat_map_ext_in {A B} (f g : A -> list B) l :
  (forall x, In x l -> f x = g x) -> flat_map f l = flat_map g l.
Proof.
  induction l as [|a l IH]; intro H; simpl; [reflexivity|].
  rewrite H, IH; [reflexivity| |left; reflexivity].
  intros; apply H; right; assumption.
Qed.

Lemma m_seq r1 r2 s :
  m (RSeq r1 r2) s
  = flat_map (fun '(c1, t1) => map (fun '(c2, t2) => (c1 ++ c2, t2)) (m r2 t1)) (m r1 s).
Proof. reflexivity. Qed.

Lemma patterns_agree s :
  trimmed s -> ~ dotted_heading s ->
  m Streamlit.clause_pattern s = m Convert.clause_pattern s.
Proof.
  intros Htr Hnd. unfold Streamlit.clause_pattern, Convert.clause_pattern,
    streamlit_clause_pattern, convert_clause_pattern.
  rewrite !m_seq with (r1 := WS). apply flat_map_ext_in. intros [c1 t1] Hin.
  destruct (m_sound _ _ _ _ Hin) as (w & Hs & Hw).
  destruct w as [|a w].
  - simpl in Hs; subst t1. rewrite numdot_rest_eq by exact Hnd. reflexivity.
  - exfalso. assert (Hf : Forall (fun x => is_space x = true) (a :: w))
      by (refine (matches_classes is_space _ _ _ _ Hw); simpl; intros x Hx; exact Hx).
    inversion Hf; subst.
    assert (is_space a = false) by (apply Htr; left; reflexivity). congruence.
Qed.

(** ** [strip] and [splitlines] *)

Lemma lstrip_Forall (P : ascii -> Prop) s : Forall P s -> Forall P (lstrip s).
Proof.
  induction 1 as [|c t Hc Ht IH]; simpl; [constructor|].
  destruct (is_space c); [exact IH|constructor; assumption].
Qed.

Lemma strip_Forall (P : ascii -> Prop) s : Forall P s -> Forall P (strip s).
Proof.
  intro H. unfold strip, rstrip.
  apply Forall_rev, lstrip_Forall, Forall_rev, lstrip_Forall, H.
Qed.

Lemma lstrip_head s :
  match lstrip s with [] => True | c :: _ => is_space c = false end.
Proof.
  induction s as [|c t IH]; simpl; [exact I|].
  destruct (is_space c) eqn:E; [exact IH|exact E].
Qed.

Lemma lstrip_app_last l h :
  is_space h = false -> lstrip (l ++ [h]) = lstrip l ++ [h].
Proof.
  intro Hh. induction l as [|a l IH]; simpl.
  - rewrite Hh. reflexivity.
  - destruct (is_space a); [exact IH|reflexivity].
Qed.

Lemma strip_trimmed s : trimmed (strip s).
Proof.
  unfold trimmed, strip, rstrip. intros c [Hc|Hc].
  - pose proof (lstrip_head s) as Hl.
    destruct (lstrip s) as [|x t]; [discriminate|].
    simpl in Hc. rewrite lstrip_app_last, rev_app_distr in Hc by exact Hl.
    simpl in Hc. inversion Hc; subst. exact Hl.
  - rewrite rev_involutive in Hc.
    pose proof (lstrip_head (rev (lstrip s))) as Hl.
    destruct (lstrip (rev (lstrip s))); [discriminate|].
    simpl in Hc. inversion Hc; subst. exact Hl.
Qed.

Lemma trimmed_strip s : trimmed s -> strip s = s.
Proof.
  intro H. unfold strip, rstrip.
  destruct s as [|c t]; [reflexivity|].
  assert (Hc : is_space c = false) by (apply H; left; reflexivity).
  simpl lstrip at 2. rewrite Hc.
  destruct (rev (c :: t)) as [|d u] eqn:E.
  - apply (f_equal (@rev _)) in E. rewrite rev_involutive in E. discriminate.
  - assert (Hd : is_space d = false) by (apply H; right; rewrite E; reflexivity).
    simpl. rewrite Hd, <- E, rev_involutive. reflexivity.
Qed.

Lemma strip_idem s : strip (strip s) = strip s.
Proof. apply trimmed_strip, strip_trimmed. Qed.

Lemma strip_space_cons c s : is_space c = true -> strip (c :: s) = strip s.
Proof. intro H. unfold strip, rstrip. simpl. rewrite H. reflexivity. Qed.

Lemma line_break_nn c : is_line_break c = false -> nn c.
Proof.
  intro H. unfold nn, not_newline.
  destruct (Ascii.eqb_spec c "010") as [->|Hne]; [discriminate|reflexivity].
Qed.

Lemma splitlines_aux_nn n : forall s cur l,
  length s <= n -> Forall nn cur -> In l (splitlines_aux cur s) -> Forall nn l.
Proof.
  induction n as [|n IH]; intros s cur l Hlen Hcur Hin.
  - destruct s; [|simpl in Hlen; lia].
    simpl in Hin. destruct cur; [contradiction|].
    destruct Hin as [<-|[]]. apply Forall_rev. exact Hcur.
  - destruct s as [|c t].
    + simpl in Hin. destruct cur; [contradiction|].
      destruct Hin as [<-|[]]. apply Forall_rev. exact Hcur.
    + simpl in Hlen, Hin.
      destruct (Ascii.eqb c "013") eqn:Ecr.
      * destruct Hin as [<-|Hin]; [apply Forall_rev; exact Hcur|].
        destruct t as [|d t'].
        -- exact (IH [] [] l (Nat.le_0_l _) (Forall_nil _) Hin).
        -- destruct (Ascii.eqb d "010").
           ++ refine (IH t' [] l _ (Forall_nil _) Hin). simpl in Hlen. lia.
           ++ refine (IH (d :: t') [] l _ (Forall_nil _) Hin). lia.
      * destruct (is_line_break c) eqn:Elb.
        -- destruct Hin as [<-|Hin]; [apply Forall_rev; exact Hcur|].
           refine (IH t [] l _ (Forall_nil _) Hin). lia.
        -- refine (IH t (c :: cur) l _ _ Hin); [lia|].
           constructor; [apply line_break_nn; exact Elb|exact Hcur].
Qed.

Lemma page_lines_nn pages l : In l (page_lines pages) -> Forall nn l.
Proof.
  unfold page_lines. intro H. apply in_flat_map in H as [p [_ Hl]].
  exact (splitlines_aux_nn (length p) p [] l (le_n _) (Forall_nil _) Hl).
Qed.

(** ** The segmenter for any pattern with the clause groups *)

Section Segmenter.
Variable pat : regex.
Hypothesis pat_shape : forall s groups, re_match pat s = Some groups ->
  exists g1 g2, groups = [g1; g2] /\ num_ok g1 /\ Forall nn g2.

Lemma step_ok st raw : state_ok st -> Forall nn raw -> state_ok (step pat st raw).
Proof.
  destruct st as [[rows cur] txt]. intros (Hrows & Hcur & Htxt) Hraw.
  pose proof (strip_Forall _ _ Hraw) as Hline.
  unfold step. destruct (strip raw) as [|x t] eqn:Es; [exact (conj Hrows (conj Hcur Htxt))|].
  destruct (re_match pat (x :: t)) as [groups|] eqn:Em.
  - destruct (pat_shape _ _ Em) as (g1 & g2 & -> & Hg1 & Hg2).
    simpl. split; [|split].
    + destruct cur as [[|d c]|]; try exact Hrows.
      apply Forall_app. split; [exact Hrows|].
      constructor; [|constructor].
      destruct Hcur as [Hc|(g & Hg & Hok)]; [discriminate|].
      inversion Hg; subst.
      split; [exact Hok|split; [apply strip_trimmed|apply strip_Forall; exact Htxt]].
    + right. exists g1. split; [reflexivity|exact Hg1].
    + exact Hg2.
  - unfold continuation. destruct (truthy cur); [|exact (conj Hrows (conj Hcur Htxt))].
    refine (conj Hrows (conj Hcur _)).
    apply Forall_app. split; [exact Htxt|]. constructor; [reflexivity|exact Hline].
Qed.

Lemma fold_ok ls st :
  Forall (Forall nn) ls -> state_ok st -> state_ok (fold_left (step pat) ls st).
Proof.
  intro H; revert st; induction H as [|l ls Hl _ IH]; intros st Hst; simpl; [exact Hst|].
  apply IH, step_ok; assumption.
Qed.

Lemma finish_ok st : state_ok st -> Forall row_ok (finish st).
Proof.
  destruct st as [[rows cur] txt]. intros (Hrows & Hcur & Htxt).
  unfold finish. apply Forall_map.
  assert (Hp : forall r, row_pair_ok r -> row_ok (let '(c, t) := r in mk_row c t [])).
  { intros [c t] (H1 & H2 & H3). exact (conj H1 (conj H2 (conj H3 eq_refl))). }
  destruct cur as [[|d c]|].
  - eapply Forall_impl; [exact Hp|exact Hrows].
  - eapply Forall_impl; [exact Hp|]. apply Forall_app. split; [exact Hrows|].
    constructor; [|constructor].
    destruct Hcur as [Hc|(g & Hg & Hok)]; [discriminate|]. inversion Hg; subst.
    split; [exact Hok|split; [apply strip_trimmed|apply strip_Forall; exact Htxt]].
  - eapply Forall_impl; [exact Hp|exact Hrows].
Qed.

Lemma init_ok : state_ok init_state.
Proof. exact (conj (Forall_nil _) (conj (or_introl eq_refl) (Forall_nil _))). Qed.

Lemma lines_nn pages : Forall (Forall nn) (page_lines pages).
Proof. apply Forall_forall. intros l Hl. exact (page_lines_nn pages l Hl). Qed.

Lemma process_ok pages : Forall row_ok (process_with pat pages).
Proof.
  rewrite process_seg. apply finish_ok, fold_ok; [apply lines_nn|apply init_ok].
Qed.

Lemma num_ok_nonempty g : num_ok g -> exists d rest, g = d :: rest.
Proof. intros ((d & rest & -> & _) & _). exists d, rest. reflexivity. Qed.

Lemma step_ids st raw :
  state_ok st -> state_ids (step pat st raw) = state_ids st ++ heading_ids pat [raw].
Proof.
  destruct st as [[rows cur] txt]. intros (_ & Hcur & _).
  unfold step, heading_ids. cbn [flat_map]. rewrite app_nil_r.
  destruct (strip raw) as [|x t]; [rewrite app_nil_r; reflexivity|].
  destruct (re_match pat (x :: t)) as [groups|].
  - unfold open_clause. simpl.
    destruct Hcur as [->|(g & -> & Hg)]; [rewrite app_nil_r; reflexivity|].
    destruct (num_ok_nonempty g Hg) as (d & rest & ->).
    rewrite map_app, <- app_assoc. simpl. rewrite <- app_assoc. reflexivity.
  - rewrite app_nil_r. unfold continuation. destruct (truthy cur); reflexivity.
Qed.

Lemma heading_ids_cons l ls :
  heading_ids pat (l :: ls) = heading_ids pat [l] ++ heading_ids pat ls.
Proof. unfold heading_ids. cbn [flat_map]. rewrite app_nil_r. reflexivity. Qed.

Lemma fold_ids ls st :
  Forall (Forall nn) ls -> state_ok st ->
  state_ids (fold_left (step pat) ls st) = state_ids st ++ heading_ids pat ls.
Proof.
  intro H; revert st; induction H as [|l ls Hl _ IH]; intros st Hst; cbn [fold_left].
  - rewrite app_nil_r. reflexivity.
  - rewrite heading_ids_cons, IH by (apply step_ok; assumption).
    rewrite step_ids by exact Hst. rewrite <- app_assoc. reflexivity.
Qed.

Lemma finish_ids st : state_ok st -> map clause_number (finish st) = state_ids st.
Proof.
  destruct st as [[rows cur] txt]. intros (_ & Hcur & _).
  assert (Hm : forall l : list (str * str),
             map clause_number (map (fun '(c, t) => mk_row c t []) l) = map fst l).
  { induction l as [|[c t] l IH]; simpl; [reflexivity|rewrite IH; reflexivity]. }
  unfold finish, state_ids.
  destruct Hcur as [->|(g & -> & Hg)]; [rewrite Hm, app_nil_r; reflexivity|].
  destruct (num_ok_nonempty g Hg) as (d & rest & ->).
  rewrite Hm, map_app. reflexivity.
Qed.

Lemma process_ids pages :
  map clause_number (process_with pat pages) = heading_ids pat (page_lines pages).
Proof.
  rewrite process_seg. unfold seg_lines.
  rewrite finish_ids by (apply fold_ok; [apply lines_nn|apply init_ok]).
  rewrite fold_ids by (apply lines_nn || apply init_ok). reflexivity.
Qed.
End Segmenter.

Lemma refeed_ok pat :
  (forall s groups, re_match pat s = Some groups ->
     exists g1 g2, groups = [g1; g2] /\ num_ok g1 /\ Forall nn g2) ->
  forall pages r, In r (process_with pat pages) ->
  finish (feed_continuation ([], Some (clause_number r), []) (content r)) = [r].
Proof.
  intros Hshape pages r Hin.
  destruct (proj1 (Forall_forall _ _) (process_ok pat Hshape pages) r Hin)
    as (Hnum & Htr & _ & Hdesc).
  destruct r as [id ct ds]; simpl in *; subst ds.
  destruct (num_ok_nonempty id Hnum) as (d & rest & ->).
  unfold feed_continuation. rewrite (trimmed_strip ct Htr).
  destruct ct as [|x t]; [reflexivity|].
  cbn [continuation truthy finish app map].
  rewrite strip_space_cons by reflexivity. rewrite (trimmed_strip _ Htr). reflexivity.
Qed.

Lemma word_line_render doc raw : word_line doc raw = doc ++ render raw.
Proof.
  unfold word_line, render. destruct (strip raw) as [|x t]; [rewrite app_nil_r; reflexivity|].
  destruct (re_match Streamlit.clause_pattern (x :: t)); reflexivity.
Qed.

Lemma fold_word ls doc : fold_left word_line ls doc = doc ++ flat_map render ls.
Proof.
  revert doc; induction ls as [|l ls IH]; intro doc; simpl; [rewrite app_nil_r; reflexivity|].
  rewrite IH, word_line_render, app_assoc. reflexivity.
Qed.

Lemma no_dot_not_dotted s : ~ In "."%char s -> ~ dotted_heading s.
Proof.
  intros Hn (g & c & rest & -> & _ & _). apply Hn. apply in_or_app. right. left. reflexivity.
Qed.

Lemma step_agree st raw :
  ~ dotted_heading (strip raw) ->
  step Convert.clause_pattern st raw = step Streamlit.clause_pattern st raw.
Proof.
  intro Hnd. unfold step, re_match.
  rewrite (patterns_agree (strip raw) (strip_trimmed raw) Hnd). reflexivity.
Qed.

Lemma fold_agree ls st :
  Forall (fun l => ~ dotted_heading (strip l)) ls ->
  fold_left (step Convert.clause_pattern) ls st = fold_left (step Streamlit.clause_pattern) ls st.
Proof.
  intro H; revert st; induction H as [|l ls Hl _ IH]; intro st; simpl; [reflexivity|].
  rewrite step_agree by exact Hl. apply IH.
Qed.

(** C1: the heading rule with an optional trailing dot holds
    for src/streamlit_app.py but not for src/convert.py, whose pattern has
    no [\.?]: there the line "1. Heading" is not a heading (it is dropped
    before any clause, and glued to the open clause otherwise), while the
    streamlit segmenter emits identifier "1.". *)
Theorem convert_rejects_trailing_dot :
  Convert.process_text_pages [page ["1. Heading"]] = [] /\
  Streamlit.process_text_pages [page ["1. Heading"]] = [rec "1." "Heading"] /\
  Convert.process_text_pages [page ["1 Intro"; "2. Scope"]] = [rec "1" "Intro 2. Scope"].
Proof. vm_compute. repeat split; reflexivity. Qed.

(** C2: every heading [create_structured_word] emits carries the level
    [min(count of dots of the identifier as captured + 1, 4)], the
    identifier being the captured text with any trailing dot; so
    depth "1" = 1, depth "1.2" = 2, depth "1.2.3.4.5" = depth "1.2.3.4" = 4
    (and the trailing dot of "1." counts: depth 2). *)
Theorem word_heading_depth :
  (forall text_pages, create_structured_word text_pages = flat_map render (page_lines text_pages)) /\
  depth (s2l "1") = 1 /\ depth (s2l "1.2") = 2 /\ depth (s2l "1.2.3") = 3 /\
  depth (s2l "1.2.3.4.5") = depth (s2l "1.2.3.4") /\ depth (s2l "1.2.3.4") = 4 /\
  depth (s2l "1.") = 2.
Proof.
  split; [|vm_compute; repeat split; reflexivity].
  intro pages. unfold create_structured_word, page_lines.
  rewrite <- (app_nil_l (flat_map render (flat_map splitlines pages))).
  generalize (@nil doc_item) as doc.
  induction pages as [|p ps IH]; intro doc; simpl; [rewrite app_nil_r; reflexivity|].
  rewrite IH, fold_word, flat_map_app, app_assoc. reflexivity.
Qed.

(** C3: for every record emitted by the convert.py segmenter, feeding its
    content as one continuation line to a freshly opened clause with the
    same identifier and sealing it gives back exactly that record. *)
Theorem refeed_content_identical pages r :
  In r (Convert.process_text_pages pages) ->
  finish (feed_continuation ([], Some (clause_number r), []) (content r)) = [r].
Proof. apply refeed_ok. exact convert_shape. Qed.

(** C4: lines before the first heading are discarded: when the line
    stream splits as [pre ++ post] with no heading in [pre], the result is
    the result of [post] alone; the orphan example of the spec. *)
Theorem orphans_discarded :
  (forall pages pre post,
     page_lines pages = pre ++ post ->
     Forall (fun l => is_heading Convert.clause_pattern l = false) pre ->
     Convert.process_text_pages pages = seg_lines Convert.clause_pattern post) /\
  Convert.process_text_pages [page ["orphan line"; "1 Heading"; "body"]]
  = [rec "1" "Heading body"].
Proof.
  split; [|vm_compute; reflexivity].
  intros pages pre post Hsplit Hpre.
  unfold Convert.process_text_pages. rewrite process_seg, Hsplit.
  unfold seg_lines. rewrite fold_left_app, fold_orphans by exact Hpre. reflexivity.
Qed.

(** C5: the pages form one line stream with no reset at page
    boundaries; the cross-page example of the spec. *)
Theorem pages_one_stream :
  (forall pages, Convert.process_text_pages pages = seg_lines Convert.clause_pattern (page_lines pages)) /\
  Convert.process_text_pages [page ["1 Intro"]; page ["continues here"]]
  = [rec "1" "Intro continues here"].
Proof.
  split; [|vm_compute; reflexivity].
  intro pages. apply process_seg.
Qed.

(** C6: the segmenter is total, and with no heading line it returns no
    record: on the empty input, on empty pages, on non-matching lines. *)
Theorem no_heading_empty :
  (forall pages,
     Forall (fun l => is_heading Convert.clause_pattern l = false) (page_lines pages) ->
     Convert.process_text_pages pages = []) /\
  Convert.process_text_pages [] = [] /\
  Convert.process_text_pages [page [""]; page [""]] = [] /\
  Convert.process_text_pages [page ["hello"; "world"]] = [].
Proof.
  split; [|vm_compute; repeat split; reflexivity].
  intros pages H. unfold Convert.process_text_pages. rewrite process_seg.
  unfold seg_lines. rewrite fold_orphans by exact H. reflexivity.
Qed.

(** C7: the identifiers of the output are the identifiers of the heading
    lines in stream order, with no sorting ("2" before "1"). *)
Theorem encounter_order :
  (forall pages,
     map clause_number (Convert.process_text_pages pages)
     = heading_ids Convert.clause_pattern (page_lines pages)) /\
  map clause_number (Convert.process_text_pages [page ["2 Second"; "1 First"]])
  = [s2l "2"; s2l "1"].
Proof.
  split; [|vm_compute; reflexivity].
  intro pages. apply process_ids. exact convert_shape.
Qed.

(** C8: two inputs whose streams of non-blank lines coincide have the
    same segmentation: blank or whitespace-only lines never matter. *)
Theorem blank_lines_irrelevant p1 p2 :
  filter (fun l => negb (is_blank l)) (page_lines p1)
  = filter (fun l => negb (is_blank l)) (page_lines p2) ->
  Convert.process_text_pages p1 = Convert.process_text_pages p2.
Proof.
  intro H. unfold Convert.process_text_pages. rewrite !process_seg.
  unfold seg_lines. rewrite (fold_filter_blank _ (page_lines p1)), (fold_filter_blank _ (page_lines p2)), H.
  reflexivity.
Qed.

(** C9: the two [process_text_pages] agree on every input none of whose
    trimmed lines starts with digit groups, a dot and a whitespace, and
    they differ on the page "1. Heading". *)
Theorem convert_streamlit_agree :
  (forall pages,
     Forall (fun l => ~ dotted_heading (strip l)) (page_lines pages) ->
     Convert.process_text_pages pages = Streamlit.process_text_pages pages) /\
  Convert.process_text_pages [page ["1. Heading"]]
  <> Streamlit.process_text_pages [page ["1. Heading"]].
Proof.
  split; [|vm_compute; discriminate].
  intros pages H. unfold Convert.process_text_pages, Streamlit.process_text_pages.
  rewrite !process_seg. unfold seg_lines. rewrite fold_agree by exact H. reflexivity.
Qed.

(** C10: every record of either segmenter has a clause number that starts
    with a digit and holds only digits and dots, a content with no
    whitespace at either end and no newline, and an empty description. *)
Theorem row_invariant pages r :
  In r (Convert.process_text_pages pages) \/ In r (Streamlit.process_text_pages pages) ->
  (exists d rest, clause_number r = d :: rest /\ is_digit d = true) /\
  Forall (fun c => is_digit c || is_dot c = true) (clause_number r) /\
  trimmed (content r) /\ ~ In "010"%char (content r) /\ description r = [].
Proof.
  intro Hin.
  assert (Hok : row_ok r).
  { destruct Hin as [Hin|Hin].
    - exact (proj1 (Forall_forall _ _) (process_ok _ convert_shape pages) r Hin).
    - exact (proj1 (Forall_forall _ _) (process_ok _ streamlit_shape pages) r Hin). }
  destruct Hok as ((Hd & Hf) & Htr & Hnn & Hdesc).
  refine (conj Hd (conj Hf (conj Htr (conj _ Hdesc)))).
  intro Hnl. apply (proj1 (Forall_forall _ _) Hnn) in Hnl. discriminate.
Qed.

Lemma refeed_content_identical_witness :
  In (rec "1" "Scope text") (Convert.process_text_pages [page ["1 Scope"; "text"]]) /\
  finish (feed_continuation ([], Some (s2l "1"), []) (s2l "Scope text"))
  = [rec "1" "Scope text"].
Proof.
  assert (Hin : In (rec "1" "Scope text")
                   (Convert.process_text_pages [page ["1 Scope"; "text"]]))
    by (vm_compute; left; reflexivity).
  split; [exact Hin|].
  exact (refeed_content_identical [page ["1 Scope"; "text"]] (rec "1" "Scope text") Hin).
Defined.

Lemma orphans_discarded_witness :
  Convert.process_text_pages [page ["orphan"; "1 A"]]
  = seg_lines Convert.clause_pattern [s2l "1 A"].
Proof.
  apply (proj1 orphans_discarded _ [s2l "orphan"] _).
  - vm_compute. reflexivity.
  - constructor; [vm_compute; reflexivity|constructor].
Defined.

Lemma no_heading_empty_witness :
  Convert.process_text_pages [page ["hello"; ""; "world"]] = [].
Proof.
  apply (proj1 no_heading_empty). vm_compute. repeat constructor.
Defined.

Lemma blank_lines_irrelevant_witness :
  Convert.process_text_pages [page ["1 A"; ""; "   "; "b"]; page [""]]
  = Convert.process_text_pages [page ["1 A"; "b"]].
Proof. apply blank_lines_irrelevant. vm_compute. reflexivity. Defined.

Lemma convert_streamlit_agree_witness :
  Convert.process_text_pages [page ["1 Intro"; "x"; "2 Two"]]
  = Streamlit.process_text_pages [page ["1 Intro"; "x"; "2 Two"]].
Proof.
  apply (proj1 convert_streamlit_agree).
  apply Forall_forall. intros l Hl. vm_compute in Hl.
  apply no_dot_not_dotted.
  destruct Hl as [<-|[<-|[<-|[]]]]; vm_compute; intuition discriminate.
Defined.

Lemma row_invariant_witness :
  (exists d rest, clause_number (rec "1.2" "A") = d :: rest /\ is_digit d = true) /\
  Forall (fun c => is_digit c || is_dot c = true) (clause_number (rec "1.2" "A")) /\
  trimmed (content (rec "1.2" "A")) /\ ~ In "010"%char (content (rec "1.2" "A")) /\
  description (rec "1.2" "A") = [].
Proof.
  apply (row_invariant [page ["1.2 A"]]). left. vm_compute. left. reflexivity.
Defined.

(** * The rest of the pipeline *)

(** ** Stripping pages before segmentation *)
Lemma lstrip_spaces_app w y : spaces w -> lstrip (w ++ y) = lstrip y.
Proof. induction 1 as [|c w Hc _ IH]; simpl; [reflexivity|]. rewrite Hc. exact IH. Qed.

Lemma strip_spaces_app w y : spaces w -> strip (w ++ y) = strip y.
Proof. intro H. unfold strip. rewrite lstrip_spaces_app by exact H. reflexivity. Qed.

Lemma lstrip_lstrip_app y w : lstrip (y ++ w) = lstrip (lstrip y ++ w).
Proof.
  induction y as [|c y IH]; simpl; [reflexivity|].
  destruct (is_space c) eqn:E; [exact IH|simpl; rewrite E; reflexivity].
Qed.

Lemma spaces_lstrip w : spaces w -> lstrip w = [].
Proof. intro H. rewrite <- (app_nil_r w), lstrip_spaces_app by exact H. reflexivity. Qed.

Lemma rstrip_app_spaces y w : spaces w -> rstrip (y ++ w) = rstrip y.
Proof.
  intro H. unfold rstrip. rewrite rev_app_distr, lstrip_spaces_app by (apply Forall_rev, H).
  reflexivity.
Qed.

Lemma strip_app_spaces y w : spaces w -> strip (y ++ w) = strip y.
Proof.
  intro H. unfold strip. rewrite lstrip_lstrip_app.
  pose proof (lstrip_head y) as Hh. destruct (lstrip y) as [|c t] eqn:E.
  - simpl. rewrite spaces_lstrip by exact H. reflexivity.
  - cbn [app lstrip]. simpl in Hh. rewrite Hh. rewrite app_comm_cons. apply rstrip_app_spaces, H.
Qed.

Lemma lstrip_split s : exists w, spaces w /\ s = w ++ lstrip s.
Proof.
  induction s as [|c t IH]; simpl; [exists []; split; [constructor|reflexivity]|].
  destruct (is_space c) eqn:E.
  - destruct IH as (w & Hw & He). exists (c :: w). split; [constructor; assumption|].
    simpl. rewrite <- He. reflexivity.
  - exists []. split; [constructor|reflexivity].
Qed.

Lemma strip_split s : exists w1 w2, spaces w1 /\ spaces w2 /\ s = w1 ++ strip s ++ w2.
Proof.
  destruct (lstrip_split s) as (w1 & H1 & E1).
  destruct (lstrip_split (rev (lstrip s))) as (w2 & H2 & E2).
  exists w1, (rev w2). split; [exact H1|split; [apply Forall_rev, H2|]].
  unfold strip, rstrip. rewrite E1 at 1. f_equal.
  apply (f_equal (@rev ascii)) in E2. rewrite rev_involutive, rev_app_distr in E2.
  exact E2.
Qed.

Lemma spaces_rev_blank w : spaces w -> is_blank (rev w) = true.
Proof.
  intro H. unfold is_blank. rewrite <- (app_nil_r (rev w)), strip_spaces_app
    by (apply Forall_rev, H). reflexivity.
Qed.

Lemma nb_cons a l :
  nb_lines (a :: l) = (if is_blank a then [] else [strip a]) ++ nb_lines l.
Proof. unfold nb_lines. simpl. destruct (is_blank a); reflexivity. Qed.

Lemma nb_app l1 l2 : nb_lines (l1 ++ l2) = nb_lines l1 ++ nb_lines l2.
Proof. unfold nb_lines. rewrite filter_app, map_app. reflexivity. Qed.

Lemma nb_cons_strip a b l1 l2 :
  strip a = strip b -> nb_lines l1 = nb_lines l2 -> nb_lines (a :: l1) = nb_lines (b :: l2).
Proof.
  intros Hs Hl. rewrite !nb_cons, Hl. unfold is_blank. rewrite Hs. reflexivity.
Qed.

Lemma nb_blank a l : is_blank a = true -> nb_lines (a :: l) = nb_lines l.
Proof. intro H. rewrite nb_cons, H. reflexivity. Qed.

(* The first line may start with extra whitespace. *)
Lemma split_front s : forall x cur, spaces cur ->
  nb_lines (splitlines_aux (x ++ cur) s) = nb_lines (splitlines_aux x s).
Proof.
  assert (Hh : forall x cur, spaces cur -> strip (rev (x ++ cur)) = strip (rev x)).
  { intros x cur H. rewrite rev_app_distr. apply strip_spaces_app, Forall_rev, H. }
  induction s as [|c t IH]; intros x cur Hc; simpl.
  - destruct x as [|a x]; destruct cur as [|b cur]; try reflexivity.
    + simpl. rewrite nb_blank by (apply (spaces_rev_blank (b :: cur)), Hc). reflexivity.
    + apply nb_cons_strip; [apply Hh, Hc|reflexivity].
    + apply nb_cons_strip; [apply Hh, Hc|reflexivity].
  - destruct (Ascii.eqb c "013"); [apply nb_cons_strip; [apply Hh, Hc|reflexivity]|].
    destruct (is_line_break c); [apply nb_cons_strip; [apply Hh, Hc|reflexivity]|].
    apply (IH (c :: x) cur Hc).
Qed.

Lemma nb_aux_nil : nb_lines (splitlines_aux [] []) = [].
Proof. reflexivity. Qed.

(* Leading whitespace of a page. *)
Lemma split_leading n : forall w s cur, length w <= n -> spaces cur -> spaces w ->
  nb_lines (splitlines_aux cur (w ++ s)) = nb_lines (splitlines_aux [] s).
Proof.
  induction n as [|n IH]; intros w s cur Hn Hc Hw.
  - destruct w; [|simpl in Hn; lia]. apply (split_front s [] cur Hc).
  - destruct w as [|c w'].
    + apply (split_front s [] cur Hc).
    + inversion Hw as [|? ? Hcs Hw']; subst. simpl in Hn |- *.
      destruct (Ascii.eqb c "013") eqn:Ecr.
      * rewrite nb_blank by (apply spaces_rev_blank, Hc).
        destruct w' as [|d w''].
        -- simpl app. destruct s as [|d t']; [reflexivity|].
           destruct (Ascii.eqb d "010") eqn:Ed; [|reflexivity].
           apply Ascii.eqb_eq in Ed. subst d. reflexivity.
        -- inversion Hw' as [|? ? _ Hw'']; subst. cbn [app].
           destruct (Ascii.eqb d "010").
           ++ apply IH; [simpl in Hn; lia|constructor|exact Hw''].
           ++ apply (IH (d :: w'')); [simpl in Hn |- *; lia|constructor|exact Hw'].
      * destruct (is_line_break c).
        -- rewrite nb_blank by (apply spaces_rev_blank, Hc).
           apply IH; [lia|constructor|exact Hw'].
        -- apply IH; [lia|constructor; assumption|exact Hw'].
Qed.

(* A run of whitespace alone gives no non-blank line but the current one. *)
Lemma split_spaces_only n : forall w cur, length w <= n -> spaces w ->
  nb_lines (splitlines_aux cur w) = nb_lines (splitlines_aux cur []).
Proof.
  induction n as [|n IH]; intros w cur Hn Hw.
  - destruct w; [reflexivity|simpl in Hn; lia].
  - destruct w as [|c w']; [reflexivity|].
    inversion Hw as [|? ? Hcs Hw']; subst. simpl in Hn.
    assert (Hrest : forall v, length v <= n -> spaces v ->
              nb_lines (splitlines_aux [] v) = []).
    { intros v Hv Hsv. rewrite (IH v [] Hv Hsv). reflexivity. }
    assert (Hcur : forall l, nb_lines l = [] ->
              nb_lines (rev cur :: l) = nb_lines (splitlines_aux cur [])).
    { intros l Hl. destruct cur as [|a cur'].
      - rewrite nb_blank by reflexivity. exact Hl.
      - simpl. apply nb_cons_strip; [reflexivity|exact Hl]. }
    simpl. destruct (Ascii.eqb c "013").
    + apply Hcur. destruct w' as [|d w'']; [reflexivity|].
      inversion Hw' as [|? ? _ Hw'']; subst. simpl in Hn.
      destruct (Ascii.eqb d "010"); apply Hrest; (assumption || (simpl; lia) || (inversion Hw'; assumption)).
    + destruct (is_line_break c); [apply Hcur, Hrest; [lia|exact Hw']|].
      rewrite (IH w' (c :: cur) ltac:(lia) Hw'). simpl.
      destruct cur as [|a cur'].
      * simpl. rewrite nb_blank by (unfold is_blank; rewrite strip_space_cons by exact Hcs; reflexivity).
        reflexivity.
      * cbn [splitlines_aux rev]. apply nb_cons_strip; [|reflexivity].
        apply strip_app_spaces. constructor; [exact Hcs|constructor].
Qed.

(* Trailing whitespace of a page. *)
Lemma split_trailing n : forall s w cur, length s <= n -> spaces w ->
  nb_lines (splitlines_aux cur (s ++ w)) = nb_lines (splitlines_aux cur s).
Proof.
  induction n as [|n IH]; intros s w cur Hn Hw.
  - destruct s; [|simpl in Hn; lia]. simpl app. apply (split_spaces_only (length w)); [lia|exact Hw].
  - destruct s as [|c t].
    + simpl app. apply (split_spaces_only (length w)); [lia|exact Hw].
    + simpl in Hn |- *. destruct (Ascii.eqb c "013").
      * apply nb_cons_strip; [reflexivity|].
        destruct t as [|d t'].
        -- simpl. destruct w as [|d w']; [reflexivity|].
           inversion Hw as [|? ? _ Hw']; subst.
           destruct (Ascii.eqb d "010").
           ++ apply (split_spaces_only (length w')); [lia|exact Hw'].
           ++ apply (split_spaces_only (length (d :: w'))); [lia|exact Hw].
        -- cbn [app]. simpl in Hn. destruct (Ascii.eqb d "010").
           ++ apply IH; [lia|exact Hw].
           ++ apply (IH (d :: t')); [simpl; lia|exact Hw].
      * destruct (is_line_break c).
        -- apply nb_cons_strip; [reflexivity|]. apply IH; [lia|exact Hw].
        -- apply IH; [lia|exact Hw].
Qed.

Lemma splitlines_strip p : nb_lines (splitlines (strip p)) = nb_lines (splitlines p).
Proof.
  destruct (strip_split p) as (w1 & w2 & H1 & H2 & E).
  unfold splitlines. rewrite E at 2.
  rewrite (split_leading (length w1) w1 (strip p ++ w2) [] (le_n _) (Forall_nil _) H1).
  symmetry. apply (split_trailing (length (strip p))); [lia|exact H2].
Qed.

Lemma nb_page_lines_strip pages :
  nb_lines (page_lines (map strip pages)) = nb_lines (page_lines pages).
Proof.
  induction pages as [|p ps IH]; [reflexivity|].
  unfold page_lines in *. simpl. rewrite !nb_app, IH, splitlines_strip. reflexivity.
Qed.

Lemma step_strip pat st raw : step pat st (strip raw) = step pat st raw.
Proof. unfold step. rewrite strip_idem. reflexivity. Qed.

Lemma fold_nb pat ls st :
  fold_left (step pat) ls st = fold_left (step pat) (nb_lines ls) st.
Proof.
  rewrite fold_filter_blank. unfold nb_lines.
  generalize (filter (fun l => negb (is_blank l)) ls) as l. clear ls.
  intro l; revert st; induction l as [|x l IH]; intro st; simpl; [reflexivity|].
  rewrite step_strip. apply IH.
Qed.

Lemma process_nb pat p1 p2 :
  nb_lines (page_lines p1) = nb_lines (page_lines p2) ->
  process_with pat p1 = process_with pat p2.
Proof.
  intro H. rewrite !process_seg. unfold seg_lines.
  rewrite (fold_nb _ (page_lines p1)), (fold_nb _ (page_lines p2)), H. reflexivity.
Qed.

Lemma word_lines pages : create_structured_word pages = flat_map render (page_lines pages).
Proof.
  unfold create_structured_word, page_lines.
  rewrite <- (app_nil_l (flat_map render (flat_map splitlines pages))).
  generalize (@nil doc_item) as doc.
  induction pages as [|p ps IH]; intro doc; simpl; [rewrite app_nil_r; reflexivity|].
  rewrite IH, fold_word, flat_map_app, app_assoc. reflexivity.
Qed.

Lemma render_strip raw : render (strip raw) = render raw.
Proof. unfold render. rewrite strip_idem. reflexivity. Qed.

Lemma render_nb ls : flat_map render ls = flat_map render (nb_lines ls).
Proof.
  induction ls as [|l ls IH]; [reflexivity|].
  rewrite nb_cons. simpl. rewrite IH.
  destruct (is_blank l) eqn:E.
  - unfold render. unfold is_blank in E. destruct (strip l); [reflexivity|discriminate].
  - simpl. rewrite render_strip. reflexivity.
Qed.

(** Stripping every page first, as [extract_text_from_pdf] and
    [extract_text_from_image] do and [extract_text_from_scanned_pdf] does
    not, changes neither segmenter's rows nor the Word document. *)
Theorem page_strip_irrelevant :
  forall pages,
    Convert.process_text_pages (map strip pages) = Convert.process_text_pages pages /\
    Streamlit.process_text_pages (map strip pages) = Streamlit.process_text_pages pages /\
    create_structured_word (map strip pages) = create_structured_word pages.
Proof.
  intro pages. split; [|split].
  - apply process_nb, nb_page_lines_strip.
  - apply process_nb, nb_page_lines_strip.
  - rewrite !word_lines, (render_nb (page_lines (map strip pages))),
      (render_nb (page_lines pages)), nb_page_lines_strip. reflexivity.
Qed.

(* Word items per line *)
Lemma render_cases raw :
  (is_blank raw = true /\ render raw = []) \/
  (is_blank raw = false /\ is_heading Streamlit.clause_pattern raw = true /\
   exists groups, re_match Streamlit.clause_pattern (strip raw) = Some groups /\
   render raw = [Heading (group 1 groups ++ " "%char :: group 2 groups) (depth (group 1 groups))]) \/
  (is_blank raw = false /\ is_heading Streamlit.clause_pattern raw = false /\
   render raw = [Paragraph (strip raw)]).
Proof.
  unfold render, is_blank, is_heading. destruct (strip raw) as [|x t].
  - left. split; reflexivity.
  - right. destruct (re_match Streamlit.clause_pattern (x :: t)) as [g|].
    + left. repeat split. exists g. split; reflexivity.
    + right. repeat split.
Qed.

(** [create_structured_word] adds one item per non-blank line; its
    paragraphs are the stripped non-blank lines that are not headings, in
    order, including those before the first heading. *)
Theorem word_paragraphs pages :
  length (create_structured_word pages)
  = length (filter (fun l => negb (is_blank l)) (page_lines pages)) /\
  paragraphs_of (create_structured_word pages)
  = map strip (filter (fun l => negb (is_blank l) && negb (is_heading Streamlit.clause_pattern l))
                      (page_lines pages)).
Proof.
  rewrite word_lines. generalize (page_lines pages) as ls. intro ls.
  induction ls as [|l ls [IH1 IH2]]; [split; reflexivity|].
  unfold paragraphs_of in *. simpl. rewrite length_app, flat_map_app.
  destruct (render_cases l) as [(Hb & Hr)|[(Hb & Hh & g & _ & Hr)|(Hb & Hh & Hr)]];
    rewrite Hb, Hr; simpl; try rewrite Hh; simpl; split; congruence.
Qed.

(** Every heading level passed to [doc.add_heading] is between 1 and 4. *)
Theorem word_levels pages :
  Forall (fun level => 1 <= level <= 4) (levels_of (create_structured_word pages)).
Proof.
  rewrite word_lines. generalize (page_lines pages) as ls. intro ls.
  induction ls as [|l ls IH]; [constructor|].
  unfold levels_of in *. simpl. rewrite flat_map_app. apply Forall_app. split; [|exact IH].
  destruct (render_cases l) as [(_ & Hr)|[(_ & _ & g & _ & Hr)|(_ & _ & Hr)]];
    rewrite Hr; simpl; [constructor|constructor; [unfold depth; lia|constructor]|constructor].
Qed.

Lemma Forall2_map_r' {A B C} (R : A -> B -> Prop) (f : C -> B) xs ys :
  Forall2 R xs (map f ys) -> Forall2 (fun x y => R x (f y)) xs ys.
Proof.
  revert xs; induction ys as [|y ys IH]; intros xs H; inversion H; subst; constructor; auto.
Qed.

Lemma headings_ids ls :
  Forall2 (fun h id => exists rest, h = id ++ " "%char :: rest)
          (headings_of (flat_map render ls)) (heading_ids Streamlit.clause_pattern ls).
Proof.
  induction ls as [|l ls IH]; [constructor|].
  rewrite heading_ids_cons. unfold headings_of in *. simpl. rewrite flat_map_app.
  unfold render, heading_ids. simpl.
  destruct (strip l) as [|x t]; [exact IH|].
  destruct (re_match Streamlit.clause_pattern (x :: t)) as [g|]; simpl; [|exact IH].
  constructor; [exists (group 2 g); reflexivity|exact IH].
Qed.

(** The headings of the Word document correspond one to one, in order,
    to the rows of the streamlit segmenter, each heading text starting
    with the row's clause number and a space. *)
Theorem word_headings_rows pages :
  Forall2 (fun h r => exists rest, h = clause_number r ++ " "%char :: rest)
          (headings_of (create_structured_word pages))
          (Streamlit.process_text_pages pages).
Proof.
  apply (Forall2_map_r' (fun h id => exists rest, h = id ++ " "%char :: rest)).
  unfold Streamlit.process_text_pages. rewrite (process_ids _ streamlit_shape), word_lines.
  apply headings_ids.
Qed.

Lemma rows_length pat :
  (forall s groups, re_match pat s = Some groups ->
     exists g1 g2, groups = [g1; g2] /\ num_ok g1 /\ Forall nn g2) ->
  forall pages, length (process_with pat pages) = length (heading_ids pat (page_lines pages)).
Proof.
  intros H pages. rewrite <- (process_ids pat H pages), length_map. reflexivity.
Qed.

Lemma frame_header_gen pat :
  (forall s groups, re_match pat s = Some groups ->
     exists g1 g2, groups = [g1; g2] /\ num_ok g1 /\ Forall nn g2) ->
  forall pages,
  map fst (frame_columns (process_with pat pages))
  = match heading_ids pat (page_lines pages) with
    | [] => [s2l "description"]
    | _ => [s2l "clause_number"; s2l "content"; s2l "description"]
    end.
Proof.
  intros H pages. pose proof (rows_length pat H pages) as E.
  destruct (process_with pat pages), (heading_ids pat (page_lines pages));
    try discriminate; reflexivity.
Qed.

(** The columns of the data frame, hence the header row of the sheet:
    [description] alone when no line is a heading, otherwise
    [clause_number], [content], [description]. *)
Theorem frame_header pages :
  map fst (frame_columns (Convert.process_text_pages pages))
  = match heading_ids Convert.clause_pattern (page_lines pages) with
    | [] => [s2l "description"]
    | _ => [s2l "clause_number"; s2l "content"; s2l "description"]
    end /\
  map fst (frame_columns (Streamlit.process_text_pages pages))
  = match heading_ids Streamlit.clause_pattern (page_lines pages) with
    | [] => [s2l "description"]
    | _ => [s2l "clause_number"; s2l "content"; s2l "description"]
    end.
Proof. split; apply frame_header_gen; [exact convert_shape|exact streamlit_shape]. Qed.


Lemma max_length_acc vs acc : acc <= fold_left max_step vs acc.
Proof.
  revert acc; induction vs as [|v vs IH]; intro acc; simpl; [lia|].
  specialize (IH (max_step acc v)). unfold max_step in *. destruct v; lia.
Qed.

Lemma max_length_empties vs acc :
  Forall (fun v => v = []) vs -> fold_left max_step vs acc = acc.
Proof. intro H; revert acc; induction H as [|v vs -> _ IH]; intro acc; simpl; [reflexivity|apply IH]. Qed.

Lemma widths_gen pat :
  (forall s groups, re_match pat s = Some groups ->
     exists g1 g2, groups = [g1; g2] /\ num_ok g1 /\ Forall nn g2) ->
  forall pages,
  (process_with pat pages = [] /\ column_widths (process_with pat pages) = [13]) \/
  (exists w1 w2, column_widths (process_with pat pages) = [w1; w2; 13] /\
                 15 <= w1 <= 60 /\ 9 <= w2 <= 60).
Proof.
  intros H pages. pose proof (process_ok pat H pages) as Hok.
  destruct (process_with pat pages) as [|r rs] eqn:E; [left; split; reflexivity|right].
  unfold column_widths, frame_columns, max_length.
  change (fun acc v => match v with [] => acc | _ => Nat.max acc (length v) end) with max_step.
  set (ds := map description (r :: rs)). set (cs := map clause_number (r :: rs)).
  set (ts := map content (r :: rs)). cbn [map fold_left].
  assert (Hd : Forall (fun v => v = []) ds).
  { apply Forall_map. eapply Forall_impl; [|exact Hok]. intros x (_ & _ & _ & Hx). exact Hx. }
  rewrite (max_length_empties _ _ Hd).
  eexists _, _. split; [reflexivity|].
  pose proof (max_length_acc cs (max_step 0 (s2l "clause_number"))).
  pose proof (max_length_acc ts (max_step 0 (s2l "content"))).
  simpl max_step in *. change (15 <= Nat.min (fold_left max_step cs 13 + 2) 60 <= 60 /\ 9 <= Nat.min (fold_left max_step ts 7 + 2) 60 <= 60). lia.
Qed.

(** The widths set by [save_to_excel]: 13 for the only column when
    there is no clause; otherwise 15 to 60 for [clause_number], 9 to 60
    for [content] and 13 for [description]. *)
Theorem excel_column_widths pages :
  (Convert.process_text_pages pages = [] /\ column_widths (Convert.process_text_pages pages) = [13]) \/
  (exists w1 w2, column_widths (Convert.process_text_pages pages) = [w1; w2; 13] /\
                 15 <= w1 <= 60 /\ 9 <= w2 <= 60).
Proof. apply widths_gen, convert_shape. Qed.

(** The first tab warns exactly when no line is a heading, and otherwise
    reports as many clauses as there are heading lines. *)
Theorem excel_tab_message pages :
  excel_tab pages
  = match heading_ids Streamlit.clause_pattern (page_lines pages) with
    | [] => NoClausesDetected
    | ids => Extracted (length ids)
    end.
Proof.
  pose proof (rows_length _ streamlit_shape pages) as E.
  unfold excel_tab, Streamlit.process_text_pages.
  change streamlit_clause_pattern with Streamlit.clause_pattern in E.
  destruct (process_with Streamlit.clause_pattern pages) as [|r rs];
    destruct (heading_ids Streamlit.clause_pattern (page_lines pages)) as [|i is];
    simpl in E; try discriminate; [reflexivity|].
  simpl. rewrite E. reflexivity.
Qed.

(** [save_to_postgres] runs one CREATE TABLE, then one INSERT per heading
    line, in stream order, with that line's clause number and an empty
    description. *)
Theorem postgres_statements pages url tbl :
  exists inserts,
    save_to_postgres pages url tbl = CreateTable tbl :: inserts /\
    Forall2 (fun s id => exists ct, s = InsertRow tbl id ct []) inserts
            (heading_ids Convert.clause_pattern (page_lines pages)).
Proof.
  eexists. split; [reflexivity|].
  pose proof (process_ok _ convert_shape pages) as Hok.
  unfold Convert.process_text_pages. rewrite <- (process_ids _ convert_shape pages).
  unfold Convert.process_text_pages in Hok.
  induction Hok as [|r rs (_ & _ & _ & Hr) _ IH]; simpl; constructor; [|exact IH].
  exists (content r). rewrite Hr. reflexivity.
Qed.

(** ** [convert_file] and the second tab *)
Lemma str_eqb_spec a b : str_eqb a b = true <-> a = b.
Proof. unfold str_eqb. destruct (list_eq_dec ascii_dec a b); split; congruence. Qed.

Lemma existsb_str_eqb x l : existsb (str_eqb x) l = true <-> In x l.
Proof.
  rewrite existsb_exists. split.
  - intros (y & Hy & E). apply str_eqb_spec in E. subst. exact Hy.
  - intro H. exists x. split; [exact H|apply str_eqb_spec; reflexivity].
Qed.

Lemma fold_append (ocr acc : list str) :
  fold_left (fun full_text text => full_text ++ [text]) ocr acc = acc ++ ocr.
Proof.
  revert acc. induction ocr as [|t ts IH]; intro acc; cbn [fold_left].
  - rewrite app_nil_r. reflexivity.
  - rewrite IH, <- app_assoc. reflexivity.
Qed.

Lemma scanned_identity ocr : extract_text_from_scanned_pdf ocr = ocr.
Proof. apply fold_append. Qed.

Lemma py_any_pdf texts :
  py_any (extract_text_from_pdf texts)
  = negb (forallb (fun t => match t with Some s => is_blank s | None => true end) texts).
Proof.
  induction texts as [|t ts IH]; [reflexivity|].
  unfold extract_text_from_pdf, py_any in *. simpl. rewrite IH.
  destruct t as [s|]; [|reflexivity]. unfold is_blank. destruct (strip s); reflexivity.
Qed.

(** For a file whose suffix is [.pdf] in any case, the second tab uses
    the OCR texts exactly when every page's extracted text is missing or
    whitespace only, and the stripped extracted pages otherwise. *)
Theorem word_tab_fallback name texts scanned image_text :
  str_eqb (lower (path_suffix (path_of_string name))) (s2l ".pdf") = true ->
  word_tab_pages name texts scanned image_text
  = if forallb (fun t => match t with Some s => is_blank s | None => true end) texts
    then scanned else extract_text_from_pdf texts.
Proof.
  intro H. unfold word_tab_pages. rewrite H, py_any_pdf, negb_involutive, scanned_identity.
  reflexivity.
Qed.

Lemma word_tab_fallback_witness :
  str_eqb (lower (path_suffix (path_of_string (s2l "scan.PDF")))) (s2l ".pdf") = true /\
  word_tab_pages (s2l "scan.PDF") [None; Some (s2l "  ")] [s2l "1 Intro"] []
  = [s2l "1 Intro"].
Proof.
  split; [vm_compute; reflexivity|].
  rewrite (word_tab_fallback (s2l "scan.PDF") [None; Some (s2l "  ")] [s2l "1 Intro"] [])
    by (vm_compute; reflexivity).
  vm_compute. reflexivity.
Defined.


(** A run of [convert_file] makes no call, or one extraction of the
    input and then the error, or one extraction and one save and ends
    without error: it never saves without extracting first. *)
Theorem convert_file_runs file_exists input_path target excel_output postgres_url table :
  let p := path_of_string input_path in
  let '(events, err) := convert_file file_exists input_path target excel_output postgres_url table in
  (events = [] /\ err <> None) \/
  (exists e, events = [e] /\ (e = ExtractPdf p \/ e = ExtractImage p) /\ err <> None) \/
  (exists e s, events = [e; s] /\ (e = ExtractPdf p \/ e = ExtractImage p) /\
               ((exists out, s = SaveExcel out) \/ (exists url t, s = SavePostgres url t)) /\
               err = None).
Proof.
  unfold convert_file. cbv zeta.
  destruct (file_exists _); cbn [negb]; [|left; split; [reflexivity|discriminate]].
  destruct (str_eqb (lower (path_suffix _)) _); [|destruct (existsb _ _)];
    [| |left; split; [reflexivity|discriminate]];
    (destruct (str_eqb target _);
       [destruct excel_output as [[|c o]|]; try destruct (with_suffix _ _)
       |destruct (str_eqb target _); [destruct postgres_url as [[|c u]|]|]]);
    solve [right; left; eexists; split; [reflexivity|split; [tauto|discriminate]]
          |right; right; do 2 eexists; split; [reflexivity|split; [tauto|split; [eauto|reflexivity]]]].
Qed.

Lemma convert_file_split file_exists input_path target excel_output postgres_url table :
  convert_file file_exists input_path target excel_output postgres_url table
  = let path := path_of_string input_path in
    if negb (file_exists path) then
      ([], Some (FileNotFoundError (s2l "File not found: " ++ path_str path)))
    else
      let ext := lower (path_suffix path) in
      if str_eqb ext (s2l ".pdf") then
        after_extraction path (ExtractPdf path) target excel_output postgres_url table
      else if existsb (str_eqb ext) [s2l ".jpg"; s2l ".jpeg"; s2l ".png"] then
        after_extraction path (ExtractImage path) target excel_output postgres_url table
      else ([], Some (ValueError (s2l "Unsupported file type: " ++ ext))).
Proof.
  unfold convert_file. cbv zeta.
  destruct (negb _); [reflexivity|].
  destruct (str_eqb _ _); [reflexivity|]. destruct (existsb _ _); reflexivity.
Qed.

Lemma after_extraction_head p e target excel_output postgres_url table :
  exists rest err, after_extraction p e target excel_output postgres_url table = (e :: rest, err).
Proof.
  unfold after_extraction.
  destruct (str_eqb target _);
    [destruct excel_output as [[|c o]|]; try destruct (with_suffix _ _)
    |destruct (str_eqb target _); [destruct postgres_url as [[|c u]|]|]];
    eexists _, _; reflexivity.
Qed.

Lemma convert_supported file_exists input_path target excel_output postgres_url table :
  let p := path_of_string input_path in
  file_exists p = true -> In (lower (path_suffix p)) supported_exts ->
  exists e, (e = ExtractPdf p \/ e = ExtractImage p) /\
    convert_file file_exists input_path target excel_output postgres_url table
    = after_extraction p e target excel_output postgres_url table.
Proof.
  cbv zeta. intros H Hin. rewrite convert_file_split. cbv zeta. rewrite H. cbn [negb].
  destruct (str_eqb _ (s2l ".pdf")) eqn:E1; [eexists; split; [left; reflexivity|reflexivity]|].
  destruct (existsb _ _) eqn:E2; [eexists; split; [right; reflexivity|reflexivity]|].
  exfalso. destruct Hin as [Hin|Hin].
  - rewrite <- Hin in E1. discriminate.
  - apply (proj2 (existsb_str_eqb _ _)) in Hin. congruence.
Qed.

(** For an existing file, [convert_file] extracts with pdfplumber when
    the lowercase suffix is [.pdf], with OCR when it is [.jpg], [.jpeg] or
    [.png], and otherwise raises the unsupported-type error before any call. *)
Theorem convert_file_dispatch file_exists input_path target excel_output postgres_url table :
  file_exists (path_of_string input_path) = true ->
  let p := path_of_string input_path in
  let ext := lower (path_suffix p) in
  match convert_file file_exists input_path target excel_output postgres_url table with
  | (ExtractPdf q :: _, _) => q = p /\ ext = s2l ".pdf"
  | (ExtractImage q :: _, _) => q = p /\ In ext [s2l ".jpg"; s2l ".jpeg"; s2l ".png"]
  | ([], err) =>
      ~ In ext supported_exts /\ err = Some (ValueError (s2l "Unsupported file type: " ++ ext))
  | _ => False
  end.
Proof.
  intro H. cbv zeta. rewrite convert_file_split. cbv zeta. rewrite H. cbn [negb].
  destruct (str_eqb _ (s2l ".pdf")) eqn:E1.
  - destruct (after_extraction_head (path_of_string input_path)
                (ExtractPdf (path_of_string input_path)) target excel_output postgres_url table)
      as (rest & err & ->).
    split; [reflexivity|apply str_eqb_spec, E1].
  - destruct (existsb _ _) eqn:E2.
    + destruct (after_extraction_head (path_of_string input_path)
                  (ExtractImage (path_of_string input_path)) target excel_output postgres_url table)
        as (rest & err & ->).
      split; [reflexivity|apply existsb_str_eqb, E2].
    + split; [|reflexivity]. intros [Hin|Hin].
      * rewrite <- Hin in E1. discriminate.
      * apply (proj2 (existsb_str_eqb _ _)) in Hin. congruence.
Qed.

Lemma convert_file_dispatch_witness :
  (fun _ : path => true) (path_of_string (s2l "scan.JPEG")) = true /\
  match convert_file (fun _ => true) (s2l "scan.JPEG") (s2l "excel") None None (s2l "t") with
  | (ExtractImage q :: _, _) => q = path_of_string (s2l "scan.JPEG") /\
      In (lower (path_suffix (path_of_string (s2l "scan.JPEG"))))
         [s2l ".jpg"; s2l ".jpeg"; s2l ".png"]
  | _ => False
  end.
Proof.
  split; [reflexivity|].
  exact (convert_file_dispatch (fun _ => true) (s2l "scan.JPEG") (s2l "excel") None None (s2l "t")
           eq_refl).
Defined.

(** With target [postgres] and no or an empty [postgres_url], the
    extraction still runs before the [ValueError]; nothing is saved. *)
Theorem convert_file_postgres_needs_url file_exists input_path excel_output postgres_url table :
  let p := path_of_string input_path in
  file_exists p = true -> In (lower (path_suffix p)) supported_exts ->
  postgres_url = None \/ postgres_url = Some [] ->
  exists e, (e = ExtractPdf p \/ e = ExtractImage p) /\
    convert_file file_exists input_path (s2l "postgres") excel_output postgres_url table
    = ([e], Some (ValueError (s2l "postgres_url is required when target='postgres'"))).
Proof.
  cbv zeta. intros H Hin Hu.
  destruct (convert_supported file_exists input_path (s2l "postgres") excel_output postgres_url
              table H Hin) as (e & He & ->).
  exists e. split; [exact He|].
  unfold after_extraction. vm_compute str_eqb.
  destruct Hu as [->| ->]; reflexivity.
Qed.

Lemma convert_file_postgres_needs_url_witness :
  exists e, (e = ExtractPdf (path_of_string (s2l "in/spec.pdf"))
             \/ e = ExtractImage (path_of_string (s2l "in/spec.pdf"))) /\
    convert_file (fun _ => true) (s2l "in/spec.pdf") (s2l "postgres") None (Some []) (s2l "t")
    = ([e], Some (ValueError (s2l "postgres_url is required when target='postgres'"))).
Proof.
  apply (convert_file_postgres_needs_url (fun _ => true) (s2l "in/spec.pdf") None (Some []) (s2l "t"));
    [reflexivity|vm_compute; left; reflexivity|right; reflexivity].
Defined.

(** Any target other than [excel] and [postgres] (the check is case
    sensitive) raises [Unknown target] after the extraction. *)
Theorem convert_file_unknown_target file_exists input_path target excel_output postgres_url table :
  let p := path_of_string input_path in
  file_exists p = true -> In (lower (path_suffix p)) supported_exts ->
  target <> s2l "excel" -> target <> s2l "postgres" ->
  exists e, (e = ExtractPdf p \/ e = ExtractImage p) /\
    convert_file file_exists input_path target excel_output postgres_url table
    = ([e], Some (ValueError (s2l "Unknown target: " ++ target))).
Proof.
  cbv zeta. intros H Hin H1 H2.
  destruct (convert_supported file_exists input_path target excel_output postgres_url
              table H Hin) as (e & He & ->).
  exists e. split; [exact He|].
  unfold after_extraction.
  destruct (str_eqb target (s2l "excel")) eqn:E1; [apply str_eqb_spec in E1; contradiction|].
  destruct (str_eqb target (s2l "postgres")) eqn:E2; [apply str_eqb_spec in E2; contradiction|].
  reflexivity.
Qed.

Lemma convert_file_unknown_target_witness :
  exists e, (e = ExtractPdf (path_of_string (s2l "scan.png"))
             \/ e = ExtractImage (path_of_string (s2l "scan.png"))) /\
    convert_file (fun _ => true) (s2l "scan.png") (s2l "Excel") None None (s2l "t")
    = ([e], Some (ValueError (s2l "Unknown target: " ++ s2l "Excel"))).
Proof.
  apply (convert_file_unknown_target (fun _ => true) (s2l "scan.png") (s2l "Excel") None None (s2l "t"));
    [reflexivity|vm_compute; right; right; right; left; reflexivity|discriminate|discriminate].
Defined.

Lemma split_last_dot_app r after b a :
  split_last_dot r after = Some (b, a) -> rev r ++ after = b ++ "."%char :: a.
Proof.
  revert after; induction r as [|c r IH]; intros after H; simpl in H; [discriminate|].
  destruct (is_dot c) eqn:E.
  - inversion H; subst. unfold is_dot in E. apply Ascii.eqb_eq in E. subst.
    simpl. rewrite <- app_assoc. reflexivity.
  - simpl. rewrite <- app_assoc. apply IH, H.
Qed.

Lemma suffix_split p :
  path_suffix p <> [] ->
  exists stem, path_name p = stem ++ path_suffix p /\
               firstn (length (path_name p) - length (path_suffix p)) (path_name p) = stem.
Proof.
  unfold path_suffix. destruct (split_last_dot (rev (path_name p)) []) as [[b a]|] eqn:E;
    [|intro H; contradiction].
  destruct (((0 <? length b) && (0 <? length a))%nat); [|intro H; contradiction].
  intros _. apply split_last_dot_app in E. rewrite rev_involutive, app_nil_r in E.
  exists b. rewrite E. split; [reflexivity|].
  rewrite length_app. simpl length.
  replace (length b + S (length a) - S (length a)) with (length b) by lia.
  rewrite firstn_app, Nat.sub_diag, firstn_all. simpl. apply app_nil_r.
Qed.

Lemma suffix_name p : path_suffix p <> [] -> path_name p <> [].
Proof. unfold path_suffix. intros H E. rewrite E in H. apply H. reflexivity. Qed.

Lemma name_tail p : path_name p <> [] -> tail p <> [].
Proof. unfold path_name. intros H E. rewrite E in H. apply H. reflexivity. Qed.

Lemma join_cons x l : l <> [] -> join_slash (x :: l) = x ++ "/"%char :: join_slash l.
Proof. destruct l; [contradiction|reflexivity]. Qed.

Lemma join_last_inj init a b :
  join_slash (init ++ [a]) = join_slash (init ++ [b]) -> a = b.
Proof.
  induction init as [|x init IH]; [exact (fun H => H)|].
  simpl app. rewrite !join_cons by (destruct init; discriminate).
  intro H. apply app_inv_head in H. injection H. exact IH.
Qed.

Lemma path_str_tail p : tail p <> [] -> path_str p = root p ++ join_slash (tail p).
Proof. unfold path_str. destruct (root p), (tail p); [contradiction|reflexivity..]. Qed.

Lemma lower_xlsx_unsupported : ~ In (lower (s2l ".xlsx")) supported_exts.
Proof. vm_compute. intros [H|[H|[H|[H|[]]]]]; discriminate. Qed.

(** With target [excel] and no or an empty [excel_output], the workbook
    goes to the input path with its last suffix replaced by [.xlsx], in the
    same directory, and never to the input file itself. *)
Theorem convert_file_default_excel file_exists input_path excel_output postgres_url table :
  let p := path_of_string input_path in
  file_exists p = true -> In (lower (path_suffix p)) supported_exts ->
  excel_output = None \/ excel_output = Some [] ->
  exists e q stem,
    (e = ExtractPdf p \/ e = ExtractImage p) /\
    convert_file file_exists input_path (s2l "excel") excel_output postgres_url table
    = ([e; SaveExcel (path_str q)], None) /\
    root q = root p /\ removelast (tail q) = removelast (tail p) /\
    path_name p = stem ++ path_suffix p /\ path_name q = stem ++ s2l ".xlsx" /\
    path_str q <> path_str p.
Proof.
  cbv zeta. intros H Hin Ho.
  set (p := path_of_string input_path) in *.
  assert (Hs : path_suffix p <> []).
  { intro E. rewrite E in Hin. vm_compute in Hin.
    destruct Hin as [E1|[E1|[E1|[E1|[]]]]]; discriminate. }
  destruct (suffix_split p Hs) as (stem & Hname & Hfirst).
  pose proof (name_tail p (suffix_name p Hs)) as Ht.
  assert (Hw : with_suffix p (s2l ".xlsx")
               = Some (mk_path (root p) (removelast (tail p) ++ [stem ++ s2l ".xlsx"]))).
  { unfold with_suffix. cbv zeta. rewrite Hfirst.
    destruct (path_name p) as [|c n] eqn:En; [exfalso; apply (suffix_name p Hs), En|].
    destruct (path_suffix p) as [|d sfx] eqn:Es; [contradiction|].
    reflexivity. }
  destruct (convert_supported file_exists input_path (s2l "excel") excel_output postgres_url
              table H Hin) as (e & He & Hc).
  fold p in He, Hc.
  set (q := mk_path (root p) (removelast (tail p) ++ [stem ++ s2l ".xlsx"])) in *.
  exists e, q, stem. split; [exact He|]. split.
  { rewrite Hc. unfold after_extraction. vm_compute (str_eqb (s2l "excel") (s2l "excel")).
    destruct Ho as [-> | ->]; rewrite Hw; reflexivity. }
  split; [reflexivity|]. split; [apply removelast_last|]. split; [exact Hname|].
  split; [apply last_last|].
  rewrite (path_str_tail q)
    by (simpl; intro E'; apply app_eq_nil in E'; destruct E' as [_ E']; discriminate).
  rewrite (path_str_tail p) by exact Ht.
  intro E. apply app_inv_head in E. change (tail q) with (removelast (tail p) ++ [stem ++ s2l ".xlsx"]) in E.
  rewrite (app_removelast_last [] Ht) in E at 2.
  apply join_last_inj in E.
  change (last (tail p) []) with (path_name p) in E. rewrite Hname in E. apply app_inv_head in E.
  apply lower_xlsx_unsupported. rewrite E. exact Hin.
Qed.

Lemma convert_file_default_excel_witness :
  exists e q stem,
    (e = ExtractPdf (path_of_string (s2l "docs/report.v2.PDF"))
     \/ e = ExtractImage (path_of_string (s2l "docs/report.v2.PDF"))) /\
    convert_file (fun _ => true) (s2l "docs/report.v2.PDF") (s2l "excel") None None (s2l "t")
    = ([e; SaveExcel (path_str q)], None) /\
    root q = root (path_of_string (s2l "docs/report.v2.PDF")) /\
    removelast (tail q) = removelast (tail (path_of_string (s2l "docs/report.v2.PDF"))) /\
    path_name (path_of_string (s2l "docs/report.v2.PDF"))
    = stem ++ path_suffix (path_of_string (s2l "docs/report.v2.PDF")) /\
    path_name q = stem ++ s2l ".xlsx" /\
    path_str q <> path_str (path_of_string (s2l "docs/report.v2.PDF")).
Proof.
  apply (convert_file_default_excel (fun _ => true) (s2l "docs/report.v2.PDF") None None (s2l "t"));
    [reflexivity|vm_compute; left; reflexivity|left; reflexivity].
Defined.

Example default_excel_name :
  convert_file (fun _ => true) (s2l "docs/report.v2.PDF") (s2l "excel") None None (s2l "t")
  = ([ExtractPdf (path_of_string (s2l "docs/report.v2.PDF")); SaveExcel (s2l "docs/report.v2.xlsx")], None).
Proof. vm_compute. reflexivity. Qed.
